(** * Verification of the asym-rlpo training code (POE_ADQN, A2C driver, config)

    Tensors are modelled as lists of rationals: a 1-D tensor is a [vec], a
    2-D tensor indexed by (timestep, action) is a [mat], one row per
    timestep.  Learned networks are kept abstract: they are parameters of
    the Sections below, applied row by row as torch applies them to the
    batch dimension. *)

From Stdlib Require Import QArith List Bool Arith Lia Lqa Ascii.
From Stdlib Require Sorting.Sorted.
From stdpp Require Import base list gmap strings pretty.
Import ListNotations.

(* ------------------------------------------------------------------ *)
(** ** Tensor primitives used by [poe_adqn.py] *)

Module Tensor.

Abbreviation vec := (list Q).
Abbreviation mat := (list (list Q)).

(** [torch.zeros_like] on one row. *)
Definition zeros_like (r : vec) : vec := map (fun _ => 0%Q) r.

(** [m.gather(1, idx.unsqueeze(-1)).squeeze(-1)]: [out[t] = m[t][idx[t]]].
    Indices are in range in every call of the code (actions of the
    environment, argmax of a row); torch raises otherwise. *)
Fixpoint gather (m : mat) (idx : list nat) : vec :=
  match m, idx with
  | row :: m', i :: idx' => nth i row 0%Q :: gather m' idx'
  | _, _ => []
  end.

(** [argmax] over one row: the index of the first maximal entry. *)
Fixpoint argmax_from (i best : nat) (bv : Q) (l : vec) : nat :=
  match l with
  | [] => best
  | x :: l' =>
      if Qlt_le_dec bv x then argmax_from (S i) i x l'
      else argmax_from (S i) best bv l'
  end.

Definition argmax (r : vec) : nat :=
  match r with
  | [] => 0
  | x :: r' => argmax_from 1 0 x r'
  end.

(** [m.argmax(-1)]: one index per row. *)
Definition argmax_rows (m : mat) : list nat := map argmax m.

(** [x.roll(-1, 0)]: element [t] becomes element [(t+1) mod n]. *)
Definition roll_back {A} (l : list A) : list A :=
  match l with
  | [] => []
  | x :: l' => l' ++ [x]
  end.

(** [x.roll(1, 0)]: element [t] becomes element [(t-1) mod n]. *)
Definition roll_fwd {A} (l : list A) : list A :=
  match rev l with
  | [] => []
  | x :: r => x :: rev r
  end.

(** [torch.tensor(0.0).where(cond, other)]: 0 where [cond], else [other]. *)
Fixpoint where0 (cond : list bool) (other : vec) : vec :=
  match cond, other with
  | c :: cond', x :: other' => (if c then 0%Q else x) :: where0 cond' other'
  | _, _ => []
  end.

(** Elementwise [a + b] and [s * a]. *)
Fixpoint vadd (a b : vec) : vec :=
  match a, b with
  | x :: a', y :: b' => (x + y)%Q :: vadd a' b'
  | _, _ => []
  end.

Definition vscale (s : Q) (a : vec) : vec := map (fun x => (s * x)%Q) a.

Fixpoint qsum (a : vec) : Q :=
  match a with
  | [] => 0%Q
  | x :: a' => (x + qsum a')%Q
  end.

(** [F.mse_loss(a, b)] with the default mean reduction. *)
Fixpoint sq_diffs (a b : vec) : vec :=
  match a, b with
  | x :: a', y :: b' => ((x - y) * (x - y))%Q :: sq_diffs a' b'
  | _, _ => []
  end.

Definition mse_loss (a b : vec) : Q :=
  (qsum (sq_diffs a b) / inject_Z (Z.of_nat (length a)))%Q.

End Tensor.

(* ------------------------------------------------------------------ *)
(** ** [POE_ADQN] ([src/asym_rlpo/algorithms/poe_adqn.py]) *)

Module POE_ADQN.
Import Tensor.

Section Models.

(** Observation, state and recurrent hidden-state types of the environment
    and of the history model. *)
Variables Obs St Hidden : Type.

(** An [Episode]: per-timestep actions (discrete), observations, states,
    rewards and done flags. *)
Record Episode := mkEpisode {
  actions : list nat;
  observations : list Obs;
  states : list St;
  rewards : vec;
  dones : list bool;
}.

(** The [nn.ModuleDict] of [make_models_box2d]: each network applied to one
    row.  [history_model] is one recurrent step: from the hidden state
    ([None] before the first input) and one input row it gives the history
    features and the next hidden state.  [action_dim] is
    [action_model.dim], the width of the action features. *)
Record Models := mkModels {
  action_dim : nat;
  action_model : nat -> vec;
  observation_model : Obs -> vec;
  state_model : St -> vec;
  history_model : option Hidden -> vec -> vec * Hidden;
  qh_model : vec -> vec;
  qhs_model : vec -> vec;
}.

(** [history_model(inputs.unsqueeze(0))] on a whole sequence: the recurrent
    network run over the timesteps, starting from [hidden]. *)
Fixpoint history_seq (m : Models) (hidden : option Hidden) (xs : list vec)
  : list vec :=
  match xs with
  | [] => []
  | x :: xs' =>
      let '(y, h') := history_model m hidden x in
      y :: history_seq m (Some h') xs'
  end.

(** [torch.cat([a, b], dim=-1)] on two 2-D tensors with the same rows. *)
Fixpoint cat_rows (a b : mat) : mat :=
  match a, b with
  | x :: a', y :: b' => (x ++ y) :: cat_rows a' b'
  | _, _ => []
  end.

(** [action_features[0, :] = 0.0] *)
Definition zero_first_row (m : mat) : mat :=
  match m with
  | [] => []
  | r :: m' => zeros_like r :: m'
  end.

(** The action-observation input rows of [compute_q_values]. *)
Definition history_inputs (models : Models) (acts : list nat) (obs : list Obs)
  : mat :=
  let action_features := map (action_model models) acts in
  let action_features := roll_fwd action_features in
  let action_features := zero_first_row action_features in
  let observation_features := map (observation_model models) obs in
  cat_rows action_features observation_features.

Definition compute_history (models : Models) (acts : list nat) (obs : list Obs)
  : mat :=
  history_seq models None (history_inputs models acts obs).

(** [compute_q_values(models, actions, observations, states)] *)
Definition compute_q_values (models : Models) (acts : list nat)
    (obs : list Obs) (sts : list St) : mat * mat :=
  let history_features := compute_history models acts obs in
  let qh_values := map (qh_model models) history_features in
  let state_features := map (state_model models) sts in
  let inputs := cat_rows history_features state_features in
  let qhs_values := map (qhs_model models) inputs in
  (qh_values, qhs_values).

(** The regression target built inside [qhs_loss]:
    [episode.rewards + discount * qhs_values_bootstrap]. *)
Definition qhs_loss_target (ep : Episode) (target_qh_values target_qhs_values : mat)
    (discount : Q) : vec :=
  let qhs_values_bootstrap :=
    where0 (dones ep)
      (roll_back (gather target_qhs_values (argmax_rows target_qh_values))) in
  vadd (rewards ep) (vscale discount qhs_values_bootstrap).

(** [qhs_loss] *)
Definition qhs_loss (ep : Episode) (qh_values qhs_values target_qh_values
    target_qhs_values : mat) (discount : Q) : Q :=
  let qhs_values := gather qhs_values (actions ep) in
  mse_loss qhs_values
    (qhs_loss_target ep target_qh_values target_qhs_values discount).

(** The regression target built inside [qh_loss] (written out again, as the
    source does). *)
Definition qh_loss_target (ep : Episode) (target_qh_values target_qhs_values : mat)
    (discount : Q) : vec :=
  let qhs_values_bootstrap :=
    where0 (dones ep)
      (roll_back (gather target_qhs_values (argmax_rows target_qh_values))) in
  vadd (rewards ep) (vscale discount qhs_values_bootstrap).

(** [qh_loss] *)
Definition qh_loss (ep : Episode) (qh_values qhs_values target_qh_values
    target_qhs_values : mat) (discount : Q) : Q :=
  let qh_values := gather qh_values (actions ep) in
  mse_loss qh_values
    (qh_loss_target ep target_qh_values target_qhs_values discount).

(** The per-episode loss of the loop in [episodic_loss]. *)
Definition episode_loss (models target_models : Models) (discount : Q)
    (ep : Episode) : Q :=
  let '(qh_values, qhs_values) :=
    compute_q_values models (actions ep) (observations ep) (states ep) in
  let '(target_qh_values, target_qhs_values) :=
    compute_q_values target_models (actions ep) (observations ep) (states ep) in
  ((qhs_loss ep qh_values qhs_values target_qh_values target_qhs_values discount
    + qh_loss ep qh_values qhs_values target_qh_values target_qhs_values discount)
   / 2)%Q.

(** [sum(losses, start=torch.tensor(0.0))]: Python's [sum] adds from the
    left, starting from [start]. *)
Definition py_sum (start : Q) (xs : list Q) : Q :=
  fold_left Qplus xs start.

(** [POE_ADQN.episodic_loss] *)
Definition episodic_loss (models target_models : Models)
    (episodes : list Episode) (discount : Q) : Q :=
  let losses := map (episode_loss models target_models discount) episodes in
  (py_sum 0 losses / inject_Z (Z.of_nat (length losses)))%Q.

(** [TargetPolicy]: the attributes [history_features] and [hidden], both
    [None] after [__init__]. *)
Record TargetPolicy := mkTargetPolicy {
  tp_history_features : option vec;
  tp_hidden : option Hidden;
}.

(** [TargetPolicy.__init__] *)
Definition tp_init : TargetPolicy := mkTargetPolicy None None.

(** [TargetPolicy._update] *)
Definition tp_update (models : Models) (p : TargetPolicy)
    (action_features observation_features : vec) : TargetPolicy :=
  let input_features := action_features ++ observation_features in
  let '(history_features, hidden) :=
    history_model models (tp_hidden p) input_features in
  mkTargetPolicy (Some history_features) (Some hidden).

(** [TargetPolicy.reset]: note that [self.hidden] is passed on as it is. *)
Definition tp_reset (models : Models) (p : TargetPolicy) (observation : Obs)
  : TargetPolicy :=
  let action_features := repeat 0%Q (action_dim models) in
  let observation_features := observation_model models observation in
  tp_update models p action_features observation_features.

(** [TargetPolicy.step] *)
Definition tp_step (models : Models) (p : TargetPolicy) (action : nat)
    (observation : Obs) : TargetPolicy :=
  let action_features := action_model models action in
  let observation_features := observation_model models observation in
  tp_update models p action_features observation_features.

(** [TargetPolicy.po_sample_action]; [None] stands for the error raised when
    no observation has been given yet ([qh_model(None)]). *)
Definition tp_po_sample_action (models : Models) (p : TargetPolicy)
  : option nat :=
  match tp_history_features p with
  | None => None
  | Some hf => Some (argmax (qh_model models hf))
  end.

(** One episode of interaction seen from the policy: the environment emits
    its (privileged) state together with each observation, the policy is
    [reset] on the first observation and [step]ped on each later
    (action, observation) pair.  The policy's methods take no state
    argument, so the states are not passed on. *)
Definition tp_run (models : Models) (p : TargetPolicy) (o0 : Obs) (s0 : St)
    (trace : list (nat * Obs * St)) : TargetPolicy :=
  fold_left (fun q '(a, o, _) => tp_step models q a o) trace
    (tp_reset models p o0).

(** The history features after each call of an episode that is [reset] on
    [o0] and then [step]ped on [steps]. *)
Fixpoint tp_step_features (models : Models) (p : TargetPolicy)
    (steps : list (nat * Obs)) : list vec :=
  match steps with
  | [] => []
  | (a, o) :: steps' =>
      let p' := tp_step models p a o in
      match tp_history_features p' with
      | Some hf => hf :: tp_step_features models p' steps'
      | None => tp_step_features models p' steps'
      end
  end.

Definition tp_episode_features (models : Models) (p : TargetPolicy) (o0 : Obs)
    (steps : list (nat * Obs)) : list vec :=
  let p' := tp_reset models p o0 in
  match tp_history_features p' with
  | Some hf => hf :: tp_step_features models p' steps
  | None => tp_step_features models p' steps
  end.

(** The regression target of the state-conditioned head as the TD-target
    description states it, timestep by timestep: the reward plus the
    discounted bootstrap, which is 0 on done steps and otherwise the target
    [qhs] value at [t+1] at the action maximising the target [qh] values at
    [t+1]. *)
Definition td_target_spec (ep : Episode) (target_qh_values target_qhs_values : mat)
    (discount : Q) : vec :=
  map (fun t =>
         (nth t (rewards ep) 0
          + discount
            * (if nth t (dones ep) false then 0
               else nth (argmax (nth (S t) target_qh_values []))
                      (nth (S t) target_qhs_values []) 0))%Q)
    (seq 0 (length (dones ep))).

(** The policy after [reset] on [o0] and a [step] on each (action,
    observation) pair of [steps]. *)
Definition tp_run_steps (models : Models) (p : TargetPolicy) (o0 : Obs)
    (steps : list (nat * Obs)) : TargetPolicy :=
  fold_left (fun q '(a, o) => tp_step models q a o) steps (tp_reset models p o0).

(** [BehaviorPolicy]: the wrapped [TargetPolicy] and [epsilon].  The line
    [self.epsilon: float] of [__init__] is an annotation and assigns
    nothing: [epsilon] is [None] until the caller sets it. *)
Record BehaviorPolicy := mkBehaviorPolicy {
  bp_target_policy : TargetPolicy;
  bp_epsilon : option Q;
}.

(** [BehaviorPolicy.__init__] *)
Definition bp_init : BehaviorPolicy := mkBehaviorPolicy tp_init None.

(** [policy.epsilon = epsilon], as the caller does. *)
Definition bp_set_epsilon (b : BehaviorPolicy) (epsilon : Q) : BehaviorPolicy :=
  mkBehaviorPolicy (bp_target_policy b) (Some epsilon).

(** [BehaviorPolicy.reset] *)
Definition bp_reset (models : Models) (b : BehaviorPolicy) (observation : Obs)
  : BehaviorPolicy :=
  mkBehaviorPolicy (tp_reset models (bp_target_policy b) observation)
    (bp_epsilon b).

(** [BehaviorPolicy.step] *)
Definition bp_step (models : Models) (b : BehaviorPolicy) (action : nat)
    (observation : Obs) : BehaviorPolicy :=
  mkBehaviorPolicy (tp_step models (bp_target_policy b) action observation)
    (bp_epsilon b).

(** [BehaviorPolicy.po_sample_action], given the value [u] drawn by
    [random.random()] and the action [sample] that
    [self.action_space.sample()] would return.  [None] is the
    [AttributeError] of an unset [epsilon], or the error of the target
    policy. *)
Definition bp_po_sample_action (models : Models) (b : BehaviorPolicy) (u : Q)
    (sample : nat) : option nat :=
  match bp_epsilon b with
  | None => None
  | Some epsilon =>
      if Qlt_le_dec u epsilon then Some sample
      else tp_po_sample_action models (bp_target_policy b)
  end.

(** The behaviour policy after [reset] on [o0] and a [step] on each pair of
    [steps]. *)
Definition bp_run (models : Models) (b : BehaviorPolicy) (o0 : Obs)
    (steps : list (nat * Obs)) : BehaviorPolicy :=
  fold_left (fun b '(a, o) => bp_step models b a o) steps (bp_reset models b o0).

End Models.

Arguments tp_run_steps {Obs St Hidden}.
Arguments mkBehaviorPolicy {Hidden}.
Arguments bp_target_policy {Hidden}.
Arguments bp_epsilon {Hidden}.
Arguments bp_init {Hidden}.
Arguments bp_set_epsilon {Hidden}.
Arguments bp_reset {Obs St Hidden}.
Arguments bp_step {Obs St Hidden}.
Arguments bp_po_sample_action {Obs St Hidden}.
Arguments bp_run {Obs St Hidden}.

Arguments td_target_spec {Obs St}.
Arguments mkTargetPolicy {Hidden}.
Arguments tp_history_features {Hidden}.
Arguments tp_hidden {Hidden}.
Arguments tp_init {Hidden}.
Arguments tp_update {Obs St Hidden}.
Arguments tp_reset {Obs St Hidden}.
Arguments tp_step {Obs St Hidden}.
Arguments tp_po_sample_action {Obs St Hidden}.
Arguments tp_run {Obs St Hidden}.
Arguments tp_step_features {Obs St Hidden}.
Arguments tp_episode_features {Obs St Hidden}.
Arguments mkEpisode {Obs St}.
Arguments actions {Obs St}.
Arguments observations {Obs St}.
Arguments states {Obs St}.
Arguments rewards {Obs St}.
Arguments dones {Obs St}.
Arguments mkModels {Obs St Hidden}.
Arguments action_dim {Obs St Hidden}.
Arguments action_model {Obs St Hidden}.
Arguments observation_model {Obs St Hidden}.
Arguments state_model {Obs St Hidden}.
Arguments history_model {Obs St Hidden}.
Arguments qh_model {Obs St Hidden}.
Arguments qhs_model {Obs St Hidden}.
Arguments history_seq {Obs St Hidden}.
Arguments history_inputs {Obs St Hidden}.
Arguments compute_history {Obs St Hidden}.
Arguments compute_q_values {Obs St Hidden}.
Arguments qhs_loss_target {Obs St}.
Arguments qhs_loss {Obs St}.
Arguments qh_loss_target {Obs St}.
Arguments qh_loss {Obs St}.
Arguments episode_loss {Obs St Hidden}.
Arguments episodic_loss {Obs St Hidden}.

End POE_ADQN.

(* ------------------------------------------------------------------ *)
(** ** [POE_ADQN.make_models] *)

Module MakeModels.
Open Scope string_scope.

(** A Python [str]: its sequence of Unicode code points. *)
Abbreviation ustring := (list nat).

(** A literal of the source, all of whose characters are ASCII. *)
Definition of_ascii (s : string) : ustring :=
  map Ascii.nat_of_ascii (String.list_ascii_of_string s).

Section Digits.

(** [\d] in a [str] pattern (no [re.ASCII] flag) matches the characters of
    Unicode category [Nd], as recorded in the Unicode database Python
    ships; that table is outside the sources and is a parameter here. *)
Variable unicode_decimal : nat -> bool.

Definition all_digits (s : ustring) : bool := forallb unicode_decimal s.

(** [s] with [prefix] removed, if it starts with it. *)
Fixpoint strip_prefix (prefix s : ustring) : option ustring :=
  match prefix, s with
  | [], _ => Some s
  | c :: p', d :: s' => if Nat.eqb c d then strip_prefix p' s' else None
  | _ :: _, [] => None
  end.

(** [re.fullmatch(prefix + r'\d+', s)] is not [None]. *)
Definition fullmatch_digits (prefix s : ustring) : bool :=
  match strip_prefix prefix s with
  | Some (c :: rest) => unicode_decimal c && all_digits rest
  | _ => false
  end.

(** The keys of the [nn.ModuleDict] built by [make_models_box2d], in the
    order the dict literal lists them. *)
Definition box2d_keys : list string :=
  ["action_model"; "observation_model"; "state_model"; "history_model";
   "qh_model"; "qhs_model"].

(** [make_models_box2d(env)], seen through the keys of the dict it
    returns (the networks themselves are not needed here). *)
Definition make_models_box2d (env_id : ustring) : list string := box2d_keys.

Inductive MakeModelsResult :=
| ModuleDict (keys : list string)
| NotImplementedError.

(** [POE_ADQN.make_models(env)], on [env.spec.id]. *)
Definition make_models (env_id : ustring) : MakeModelsResult :=
  if fullmatch_digits (of_ascii "CartPole-v") env_id
     || fullmatch_digits (of_ascii "Acrobot-v") env_id
     || fullmatch_digits (of_ascii "LunarLander-v") env_id
  then ModuleDict (make_models_box2d env_id)
  else NotImplementedError.

End Digits.

Arguments ModuleDict : clear implicits.
Arguments NotImplementedError : clear implicits.

End MakeModels.

(* ------------------------------------------------------------------ *)
(** ** [asym_rlpo/utils/config.py] *)

(** The Python heap this module touches: [Config] objects, each pointing at
    its [_config] dict, the dicts themselves, and the module global
    [_config]. *)
Module ConfigModule.

Definition loc := nat.

(** [BasicType = str | float | int | bool | None] *)
Inductive BasicType :=
| BStr (s : string)
| BFloat (q : Q)
| BInt (z : Z)
| BBool (b : bool)
| BNone.

Abbreviation ConfigDict := (gmap string BasicType).

Record Heap := mkHeap {
  global_config : option loc;           (* module global [_config] *)
  config_objs : gmap loc loc;           (* Config object -> its [_config] dict *)
  dicts : gmap loc ConfigDict;          (* dict objects *)
  next_loc : loc;                       (* next fresh address *)
}.

Definition empty_heap : Heap := mkHeap None ∅ ∅ 0.

Definition alloc_dict (d : ConfigDict) (h : Heap) : loc * Heap :=
  (next_loc h,
   mkHeap (global_config h) (config_objs h)
     (<[next_loc h := d]> (dicts h)) (S (next_loc h))).

(** [Config()]: a fresh object whose [_config] is a fresh empty dict. *)
Definition config_new (h : Heap) : loc * Heap :=
  let '(d, h1) := alloc_dict ∅ h in
  let c := next_loc h1 in
  (c, mkHeap (global_config h1) (<[c := d]> (config_objs h1)) (dicts h1)
        (S (next_loc h1))).

(** [get_config()] *)
Definition get_config (h : Heap) : loc * Heap :=
  match global_config h with
  | Some c => (c, h)
  | None =>
      let '(c, h1) := config_new h in
      (c, mkHeap (Some c) (config_objs h1) (dicts h1) (next_loc h1))
  end.

Definition config_dict (c : loc) (h : Heap) : option ConfigDict :=
  d ← config_objs h !! c; dicts h !! d.

(** [Config._as_dict()]: [self._config.copy()], a fresh dict. *)
Definition as_dict (c : loc) (h : Heap) : option (loc * Heap) :=
  m ← config_dict c h; Some (alloc_dict m h).

(** [Config._get(name, default)] *)
Definition config_get (c : loc) (name : string) (dflt : BasicType) (h : Heap)
  : option BasicType :=
  m ← config_dict c h; Some (default dflt (m !! name)).

(** The method [Config.__getattr__(name)]; [None] is the [KeyError].
    Attribute access [config.name] calls it only when normal lookup fails,
    i.e. for names that are neither the instance attribute [_config] nor
    attributes of the class ([_get], [_update], dunder methods, ...). *)
Definition config_getattr (c : loc) (name : string) (h : Heap)
  : option BasicType :=
  m ← config_dict c h; m !! name.

(** Writes into an existing dict object ([d[k] = v], [del d[k]],
    [d.update(cd)], [d.clear()]). *)
Definition dict_modify (f : ConfigDict -> ConfigDict) (d : loc) (h : Heap)
  : Heap :=
  match dicts h !! d with
  | Some m =>
      mkHeap (global_config h) (config_objs h) (<[d := f m]> (dicts h))
        (next_loc h)
  | None => h
  end.

Inductive DictOp :=
| DSet (k : string) (v : BasicType)
| DDel (k : string)
| DUpdate (cd : ConfigDict)
| DClear.

Definition dict_op_fn (op : DictOp) : ConfigDict -> ConfigDict :=
  match op with
  | DSet k v => fun m => <[k := v]> m
  | DDel k => fun m => delete k m
  | DUpdate cd => fun m => cd ∪ m
  | DClear => fun _ => ∅
  end.

(** [Config._update(cd)] and [Config._clear()] act on [self._config]. *)
Definition config_modify (op : DictOp) (c : loc) (h : Heap) : Heap :=
  match config_objs h !! c with
  | Some d => dict_modify (dict_op_fn op) d h
  | None => h
  end.

(** What the rest of the program can do with this module's objects. *)
Inductive Op :=
| OpGetConfig
| OpAsDict (c : loc)
| OpConfig (c : loc) (op : DictOp)
| OpDict (d : loc) (op : DictOp).

Definition exec_op (h : Heap) (op : Op) : Heap :=
  match op with
  | OpGetConfig => snd (get_config h)
  | OpAsDict c => match as_dict c h with Some (_, h') => h' | None => h end
  | OpConfig c o => config_modify o c h
  | OpDict d o => dict_modify (dict_op_fn o) d h
  end.

Definition exec (ops : list Op) (h : Heap) : Heap := fold_left exec_op ops h.

(** A sequence of writes to the dict at [d]. *)
Definition dict_ops (d : loc) (ops : list DictOp) (h : Heap) : Heap :=
  fold_left (fun h o => dict_modify (dict_op_fn o) d h) ops h.

End ConfigModule.

(* ------------------------------------------------------------------ *)
(** ** [src/main_a2c.py]: run state, checkpoints, training, control flow *)

Module MainA2C.
Import Tensor.

(** Modelled from the spec: [asym_rlpo.utils.dispenser.Dispenser] (not in
    the sources), the dispenser of periodic events: it dispenses once the
    step reaches the next scheduled one, and schedules the next one
    [period] steps later. *)
Record Dispenser := mkDispenserState {
  disp_next : nat;
  disp_period : nat;
}.

(** [Dispenser(start, period)] *)
Definition mkDispenser (start period : nat) : Dispenser :=
  mkDispenserState start period.

(** [Dispenser.dispense(value)]: the result and the updated dispenser. *)
Definition dispense (d : Dispenser) (value : nat) : bool * Dispenser :=
  if disp_next d <=? value
  then (true, mkDispenserState (value + disp_period d) (disp_period d))
  else (false, d).

(** [XStats], the counters read here. *)
Record XStats := mkXStats {
  epoch : nat;
  simulation_episodes : nat;
  simulation_timesteps : nat;
  training_episodes : nat;
  training_timesteps : nat;
  optimizer_steps : nat;
}.

(** The configuration entries read by the modelled functions. *)
Record A2CConfig := mkA2CConfig {
  target_update_function : string;
  target_update_full_period : nat;
  max_simulation_timesteps : nat;
  num_data_logs : nat;
  checkpoint_period : nat;
  evaluation : bool;
  evaluation_period : nat;
  save_modelseq : bool;
  training_discount : Q;
  wandb_run_id : string;
}.

(** [Controlflow] *)
Record Controlflow := mkControlflow {
  log_data : bool;
  update_target_parameters : bool;
  evaluate : bool;
  cf_save_modelseq : bool;
}.

(** [LossDict]: loss name -> value. *)
Abbreviation LossDict := (gmap string Q).

(** Modelled from the spec: [asym_rlpo.utils.aggregate.average_losses] (not
    in the sources), the per-key average of the per-episode loss dicts
    over the keys of the first one; [None] stands for the errors Python
    raises on an empty list or a missing key. *)
Definition average_at (ls : list LossDict) (k : string) : option Q :=
  vals ← mapM (fun l : LossDict => l !! k) ls;
  Some (qsum vals / inject_Z (Z.of_nat (length vals)))%Q.

Definition average_losses (ls : list LossDict) : option LossDict :=
  match ls with
  | [] => None
  | l0 :: _ =>
      kvs ← mapM (fun kv : string * Q => v ← average_at ls kv.1; Some (kv.1, v))
              (map_to_list l0);
      Some (list_to_map kvs)
  end.

(** The mean over the episodes of the losses at key [k], as the claims
    about training describe it. *)
Definition loss_mean (ls : list LossDict) (k : string) : Q :=
  (qsum (map (fun l : LossDict => default 0%Q (l !! k)) ls)
   / inject_Z (Z.of_nat (length ls)))%Q.

Section Runstate.

(** The objects the run state is built from, kept abstract: environment,
    algorithm, its state dict, logger, timer, running averages, time
    dispenser, target updater, episode factories, device, negentropy
    schedule, Q-estimator, episodes, and the config dict. *)
Context {Env Algo StateDict DataLogger Timer Averages TimeDispenser
  TargetUpdater Factories Device Schedule QEstimator Episode CfgDict : Type}.

Variable make_env : A2CConfig -> Env.
Variable make_a2c_algorithm : A2CConfig -> Algo.
Variable algo_state_dict : Algo -> StateDict.
Variable algo_load_state_dict : Algo -> StateDict -> Algo.
Variable new_datalogger : DataLogger.
Variable new_timer : Timer.
Variable new_xstats : XStats.
Variable new_averages : Averages.
Variable new_time_dispenser : nat -> TimeDispenser.
Variable time_dispense : TimeDispenser -> bool * TimeDispenser.
Variable make_target_updater : A2CConfig -> TargetUpdater.
Variable make_factories : A2CConfig -> Env -> Algo -> Factories.
Variable get_device : A2CConfig -> Device.
Variable make_schedule : A2CConfig -> Schedule.
Variable q_estimator_factory : A2CConfig -> QEstimator.
Variable config_as_dict : A2CConfig -> CfgDict.
(** [algo.compute_losses(episode, discount=..., q_estimator=...)] *)
Variable compute_losses : Algo -> Episode -> Q -> QEstimator -> LossDict.
(** [negentropy_schedule(step)] *)
Variable schedule_value : Schedule -> nat -> Q.

(** [RunstateDispensers] *)
Record RunstateDispensers := mkRunstateDispensers {
  target_update : Dispenser;
  datalog : Dispenser;
  checkpoint : TimeDispenser;
}.

(** [Runstate] *)
Record Runstate := mkRunstate {
  rs_env : Env;
  rs_algo : Algo;
  rs_datalogger : DataLogger;
  rs_timer : Timer;
  rs_xstats : XStats;
  rs_averages : Averages;
  rs_dispensers : RunstateDispensers;
  rs_target_updater : TargetUpdater;
  rs_episodes_factories : Factories;
  rs_device : Device;
  rs_negentropy_schedule : Schedule;
  rs_q_estimator : QEstimator;
}.

Record CheckpointMetadata := mkCheckpointMetadata {
  md_config : CfgDict;
  md_wandb_run_id : string;
}.

Record CheckpointData := mkCheckpointData {
  cd_algo_state_dict : StateDict;
  cd_datalogger : DataLogger;
  cd_timer : Timer;
  cd_xstats : XStats;
  cd_averages : Averages;
  cd_dispensers : RunstateDispensers;
}.

Record Checkpoint := mkCheckpoint {
  ck_metadata : CheckpointMetadata;
  ck_data : CheckpointData;
}.

(** [make_target_update_dispenser()]; [None] is the failed [assert False]. *)
Definition make_target_update_dispenser (config : A2CConfig) : option Dispenser :=
  if String.eqb (target_update_function config) "full"%string
  then Some (mkDispenser 0 (target_update_full_period config))
  else if String.eqb (target_update_function config) "polyak"%string
  then Some (mkDispenser 0 0)
  else None.

(** [make_runstate(checkpoint)]; [None] stands for the errors raised on the
    way ([assert False] on an unknown target-update function, division by a
    zero [num_data_logs]). *)
Definition make_runstate (config : A2CConfig) (ck : option Checkpoint)
  : option Runstate :=
  let env := make_env config in
  let algo := make_a2c_algorithm config in
  let datalogger := new_datalogger in
  let timer := new_timer in
  let xstats := new_xstats in
  let averages := new_averages in
  target_update_dispenser ← make_target_update_dispenser config;
  if Nat.eqb (num_data_logs config) 0 then None else
  let datalog_period :=
    Nat.div (max_simulation_timesteps config) (num_data_logs config) in
  let dispensers := mkRunstateDispensers target_update_dispenser
                      (mkDispenser 0 datalog_period)
                      (new_time_dispenser (checkpoint_period config)) in
  (* consume first checkpoint dispense *)
  let dispensers := mkRunstateDispensers (target_update dispensers)
                      (datalog dispensers)
                      (snd (time_dispense (checkpoint dispensers))) in
  let episodes_factories := make_factories config env algo in
  let negentropy_schedule := make_schedule config in
  let q_estimator := q_estimator_factory config in
  let target_updater := make_target_updater config in
  let '(algo, datalogger, timer, xstats, averages, dispensers) :=
    match ck with
    | Some c =>
        (algo_load_state_dict algo (cd_algo_state_dict (ck_data c)),
         cd_datalogger (ck_data c), cd_timer (ck_data c),
         cd_xstats (ck_data c), cd_averages (ck_data c),
         cd_dispensers (ck_data c))
    | None => (algo, datalogger, timer, xstats, averages, dispensers)
    end in
  Some (mkRunstate env algo datalogger timer xstats averages dispensers
          target_updater episodes_factories (get_device config)
          negentropy_schedule q_estimator).

(** [make_checkpoint(runstate)] *)
Definition make_checkpoint (config : A2CConfig) (rs : Runstate) : Checkpoint :=
  mkCheckpoint
    (mkCheckpointMetadata (config_as_dict config) (wandb_run_id config))
    (mkCheckpointData (algo_state_dict (rs_algo rs)) (rs_datalogger rs)
       (rs_timer rs) (rs_xstats rs) (rs_averages rs) (rs_dispensers rs)).

(** The [objectives] dict of [run_training]. *)
Record Objectives := mkObjectives {
  obj_actor : Q;
  obj_critic : Q;
}.

(** [run_training] up to the gradient step: the averaged losses, the
    negentropy weight and the objectives handed to [gradient_step]; [None]
    is an error raised on the way ([KeyError], empty batch).  Moving the
    episodes to the device does not change them. *)
Definition run_training_objectives (config : A2CConfig) (rs : Runstate)
    (episodes : list Episode) : option Objectives :=
  losses ← average_losses
             (map (fun ep => compute_losses (rs_algo rs) ep
                               (training_discount config) (rs_q_estimator rs))
                episodes);
  let negentropy_weight :=
    schedule_value (rs_negentropy_schedule rs)
      (simulation_timesteps (rs_xstats rs)) in
  policy ← losses !! "policy"%string;
  negentropy ← losses !! "negentropy"%string;
  critic ← losses !! "critic"%string;
  Some (mkObjectives (policy + negentropy_weight * negentropy)%Q critic).

(** [update_controlflow(runstate, controlflow)]: the new control flags and
    the run state with its two step dispensers updated; [None] is the
    [ZeroDivisionError] of [epoch % 0]. *)
Definition update_controlflow (config : A2CConfig) (rs : Runstate)
  : option (Controlflow * Runstate) :=
  let ds := rs_dispensers rs in
  let t := simulation_timesteps (rs_xstats rs) in
  let '(log_data, datalog') := dispense (datalog ds) t in
  let '(update_target, target_update') := dispense (target_update ds) t in
  if Nat.eqb (evaluation_period config) 0 then None else
  let evaluate := Nat.eqb (Nat.modulo (epoch (rs_xstats rs))
                                      (evaluation_period config)) 0 in
  let cf := mkControlflow log_data update_target
              (evaluate && evaluation config)
              (log_data && save_modelseq config) in
  let ds' := mkRunstateDispensers target_update' datalog' (checkpoint ds) in
  Some (cf, mkRunstate (rs_env rs) (rs_algo rs) (rs_datalogger rs)
              (rs_timer rs) (rs_xstats rs) (rs_averages rs) ds'
              (rs_target_updater rs) (rs_episodes_factories rs)
              (rs_device rs) (rs_negentropy_schedule rs) (rs_q_estimator rs)).

End Runstate.

Arguments RunstateDispensers : clear implicits.
Arguments Runstate : clear implicits.
Arguments CheckpointMetadata : clear implicits.
Arguments CheckpointData : clear implicits.
Arguments Checkpoint : clear implicits.

(** The steps [run_epoch] takes, in order. *)
Inductive EpochEvent :=
| LogXStats
| RunEvaluation
| RunSimulation
| UpdateTargetParameters
| RunTraining
| SaveModelseq
| UpdateXStatsEpoch
| Commit.

Definition when (b : bool) (e : EpochEvent) : list EpochEvent :=
  if b then [e] else [].

(** The steps of [run_epoch] under the flags set by [update_controlflow]. *)
Definition epoch_events (cf : Controlflow) : list EpochEvent :=
  when (log_data cf) LogXStats
  ++ when (evaluate cf) RunEvaluation
  ++ [RunSimulation]
  ++ when (update_target_parameters cf) UpdateTargetParameters
  ++ [RunTraining]
  ++ when (cf_save_modelseq cf) SaveModelseq
  ++ [UpdateXStatsEpoch]
  ++ when (log_data cf) Commit.

(** Successive dispenses at the steps [ts]. *)
Fixpoint dispense_all (d : Dispenser) (ts : list nat) : list bool :=
  match ts with
  | [] => []
  | t :: ts' => let '(b, d') := dispense d t in b :: dispense_all d' ts'
  end.

End MainA2C.

(* ------------------------------------------------------------------ *)
(** ** [src/main_a2c.py]: output paths, training log data, the run loop *)

Module MainA2CRun.
Open Scope string_scope.

(** The paths [parse_args] derives from [--run-path]. *)
Record RunPaths := mkRunPaths {
  checkpoint_path : option string;
  model_path : option string;
  modelseq_path_template : option string;
}.

(** The end of [parse_args]: [f'{args.run_path}/checkpoint.pkl'],
    [f'{args.run_path}/model.pkl'] and
    [f'{args.run_path}/modelseq/modelseq.{{}}.pkl'] (where [{{}}] gives the
    two characters [{}]), or [None] for all three without a run path. *)
Definition run_paths (run_path : option string) : RunPaths :=
  match run_path with
  | None => mkRunPaths None None None
  | Some r =>
      mkRunPaths (Some (r +:+ "/checkpoint.pkl")) (Some (r +:+ "/model.pkl"))
        (Some (r +:+ "/modelseq/modelseq.{}.pkl"))
  end.

(** [template.format(arg)] with one positional argument, already turned
    into its string: [{{] and [}}] give [{] and [}], the first [{}] gives
    [arg]; [None] is the [IndexError] of a second [{}] and the [ValueError]
    of a lone [}] or of a [{] at the end.  Fields other than [{}] (numbered,
    named or with a format spec) are not covered and also give [None]. *)
Fixpoint py_format_go (used : bool) (arg s : string) : option string :=
  match s with
  | EmptyString => Some EmptyString
  | String c s1 =>
      if Ascii.eqb c "{"%char then
        match s1 with
        | String c2 s2 =>
            if Ascii.eqb c2 "{"%char then String "{"%char <$> py_format_go used arg s2
            else if Ascii.eqb c2 "}"%char then
              (if used then None else String.append arg <$> py_format_go true arg s2)
            else None
        | EmptyString => None
        end
      else if Ascii.eqb c "}"%char then
        match s1 with
        | String c2 s2 =>
            if Ascii.eqb c2 "}"%char then String "}"%char <$> py_format_go used arg s2
            else None
        | EmptyString => None
        end
      else String c <$> py_format_go used arg s1
  end.

Definition py_format (template arg : string) : option string :=
  py_format_go false arg template.

(** [str(n)] of a non-negative Python int: its decimal digits. *)
Definition py_str_int (n : nat) : string := pretty n.

(** The file name of [save_modelseq(timestep, model)]:
    [config.modelseq_path_template.format(timestep)]; [None] is the
    [AttributeError] of [None.format] when no run path was given. *)
Definition modelseq_filename (paths : RunPaths) (timestep : nat) : option string :=
  match modelseq_path_template paths with
  | None => None
  | Some template => py_format template (py_str_int timestep)
  end.

(** Strings without braces. *)
Fixpoint no_braces (s : string) : bool :=
  match s with
  | EmptyString => true
  | String c s' =>
      negb (Ascii.eqb c "{"%char) && negb (Ascii.eqb c "}"%char) && no_braces s'
  end.

(** [{f'<prefix>{key}': value for key, value in d.items()}] *)
Definition prefixed_items (prefix : string) (d : gmap string Q) : gmap string Q :=
  fold_left (fun acc '(key, value) => <[prefix +:+ key := value]> acc)
    (map_to_list d) ∅.

(** [**d] inside a dict display: the items of [d] are inserted after the
    entries already there, overriding equal keys. *)
Definition dict_splat (acc d : gmap string Q) : gmap string Q :=
  fold_left (fun acc '(key, value) => <[key := value]> acc) (map_to_list d) acc.

(** The dict [log_training] hands to [runstate.datalogger.log]. *)
Definition training_logdata (losses : gmap string Q) (negentropy_weight : Q)
    (gradient_norms : gmap string Q) : gmap string Q :=
  let losses_logdata := prefixed_items "training/losses/" losses in
  let gradient_norms_logdata :=
    prefixed_items "training/gradient_norms/" gradient_norms in
  dict_splat
    (<["training/weights/negentropy" := negentropy_weight]>
       (dict_splat ∅ losses_logdata))
    gradient_norms_logdata.

(** [Runflags] *)
Record Runflags := mkRunflags {
  rf_done : bool;
  rf_timeout : bool;
  rf_interrupt : bool;
}.

(** [Runflags.stop_run] *)
Definition stop_run (rf : Runflags) : bool :=
  rf_done rf || rf_timeout rf || rf_interrupt rf.

(** What [run] does, in order: an epoch started on a run state with the
    given [simulation_timesteps], a checkpoint written, the model saved. *)
Inductive RunEvent :=
| EpochAt (simulation_timesteps : nat)
| SaveCheckpoint
| SaveModel.

Definition is_epoch (e : RunEvent) : bool :=
  match e with EpochAt _ => true | _ => false end.

Section Run.

(** The run state, with its [simulation_timesteps] counter; [run_epoch]
    and the checkpoint time dispenser are kept abstract. *)
Context {RS : Type}.
Variable simulation_timesteps_of : RS -> nat.
(** [run_epoch(runstate, controlflow)] *)
Variable run_epoch : RS -> RS.
(** [runstate.dispensers.checkpoint.dispense()] *)
Variable checkpoint_dispense : RS -> bool * RS.
(** [timestamp_is_past(config.timeout_timestamp)] at the [i]-th test of the
    loop. *)
Variable timeout_at : nat -> bool.
(** [runflags.interrupt] at the [i]-th test of the loop, as the signal
    handler has set it. *)
Variable interrupt_at : nat -> bool.
Variable max_simulation_timesteps : nat.
Variable checkpoint_path_cfg : option string.
Variable save_model_cfg : bool.

(** [save_checkpoint(runstate)]: nothing without a checkpoint path. *)
Definition save_checkpoint : list RunEvent :=
  match checkpoint_path_cfg with
  | None => []
  | Some _ => [SaveCheckpoint]
  end.

(** [update_runflags(runstate, runflags)] at the [i]-th test; [interrupt]
    is only ever set by the signal handler. *)
Definition update_runflags (i : nat) (rs : RS) : Runflags :=
  mkRunflags (Nat.leb max_simulation_timesteps (simulation_timesteps_of rs))
    (timeout_at i) (interrupt_at i).

(** The [while True] loop of [run], from its [i]-th test, with at most
    [fuel] tests; [None] when the fuel runs out. *)
Fixpoint run_loop (fuel i : nat) (rs : RS)
  : option (list RunEvent * RS * Runflags) :=
  match fuel with
  | 0 => None
  | S fuel' =>
      let runflags := update_runflags i rs in
      if stop_run runflags then Some ([], rs, runflags) else
      let rs1 := run_epoch rs in
      let '(dispensed, rs2) := checkpoint_dispense rs1 in
      r ← run_loop fuel' (S i) rs2;
      let '(evs, rs', rf) := r in
      Some (EpochAt (simulation_timesteps_of rs)
              :: (if dispensed then save_checkpoint else []) ++ evs, rs', rf)%list
  end.

(** [run(runstate)] after its set-up: the loop, the final checkpoint, and
    the model saved when the run is done and [save_model] is set. *)
Definition run (fuel : nat) (rs : RS) : option (list RunEvent * RS * Runflags) :=
  r ← run_loop fuel 0 rs;
  let '(evs, rs', runflags) := r in
  Some ((evs ++ save_checkpoint
         ++ (if rf_done runflags && save_model_cfg then [SaveModel] else []))%list,
        rs', runflags).

End Run.

(** The return value of [main]: [int(not runflags.done)]. *)
Definition exit_code (rf : Runflags) : nat := if rf_done rf then 0 else 1.

End MainA2CRun.

(* ------------------------------------------------------------------ *)
(** ** Small concrete instances, used to exercise the statements *)

Module Examples.
Import Tensor POE_ADQN.

(** Scalar observations and states, a scalar hidden state accumulating the
    inputs, two actions. *)
Definition hidden_value (h : option Q) : Q :=
  match h with None => 0%Q | Some v => v end.

Definition ex_models : Models Q Q Q :=
  mkModels 1
    (fun a => [inject_Z (Z.of_nat a)])
    (fun o => [o])
    (fun s => [s])
    (fun h x => let v := (hidden_value h + qsum x)%Q in ([v], v))
    (fun hf => hf ++ [1%Q])
    (fun x => [qsum x; 0%Q]).

Definition ex_target_models : Models Q Q Q :=
  mkModels 1
    (fun a => [inject_Z (Z.of_nat a)])
    (fun o => [o])
    (fun s => [s])
    (fun h x => let v := (hidden_value h + qsum x)%Q in ([v], v))
    (fun hf => [1%Q] ++ hf)
    (fun x => [0%Q; qsum x]).

Definition ex_episode : Episode Q Q :=
  mkEpisode [0; 1] [1%Q; 2%Q] [5%Q; 7%Q] [1%Q; 2%Q] [false; true].

Definition ex_episode2 : Episode Q Q :=
  mkEpisode [1; 1; 0] [3%Q; 1%Q; 2%Q] [4%Q; 4%Q; 6%Q] [0%Q; 1%Q; 5%Q]
    [false; false; true].

(** A run state with trivial components, an algorithm whose state dict is
    a number, and the factories that build such run states. *)
Definition ex_config : MainA2C.A2CConfig :=
  MainA2C.mkA2CConfig "full" 100 1000 10 600 true 5 false (99 # 100) "run-1".

(** The configuration of the resumed run, with another target-update
    function and log count. *)
Definition ex_config_resume : MainA2C.A2CConfig :=
  MainA2C.mkA2CConfig "polyak" 100 1000 20 600 false 5 false (99 # 100) "run-1".

Definition ex_xstats : MainA2C.XStats := MainA2C.mkXStats 10 3 250 3 250 3.

Abbreviation ExRunstate :=
  (MainA2C.Runstate unit nat unit unit unit unit unit unit unit unit unit).

Definition ex_runstate : ExRunstate :=
  MainA2C.mkRunstate tt 7 tt tt ex_xstats tt
    (MainA2C.mkRunstateDispensers (MainA2C.mkDispenserState 250 0)
       (MainA2C.mkDispenserState 300 100) tt)
    tt tt tt tt tt.

Definition ex_time_dispense (t : unit) : bool * unit := (true, t).

(** Per-episode losses: episodes are numbers, every dict has the three
    keys. *)
Definition ex_compute_losses (a : nat) (ep : nat) (discount : Q) (q : unit)
  : MainA2C.LossDict :=
  <["policy" := inject_Z (Z.of_nat ep)]>
    (<["negentropy" := discount]>
       (<["critic" := inject_Z (Z.of_nat (2 * ep))]> ∅)).

Definition ex_schedule_value (s : unit) (t : nat) : Q :=
  (inject_Z (Z.of_nat t) / 1000)%Q.

End Examples.

(* ================================================================== *)
(** * Proofs *)

Module TensorFacts.
Import Tensor.

Lemma length_gather (m : mat) (idx : list nat) :
  length (gather m idx) = Nat.min (length m) (length idx).
Proof.
  revert idx; induction m as [|r m IH]; intros [|i idx]; simpl; auto.
Qed.

Lemma nth_gather (m : mat) (idx : list nat) t :
  t < length m -> t < length idx ->
  nth t (gather m idx) 0%Q = nth (nth t idx 0) (nth t m []) 0%Q.
Proof.
  revert idx t; induction m as [|r m IH]; intros [|i idx] t Hm Hi;
    simpl in *; try lia.
  destruct t; simpl; auto. apply IH; lia.
Qed.

Lemma length_where0 (c : list bool) (v : vec) :
  length (where0 c v) = Nat.min (length c) (length v).
Proof.
  revert v; induction c as [|b c IH]; intros [|x v]; simpl; auto.
Qed.

Lemma nth_where0 (c : list bool) (v : vec) t :
  t < length c -> t < length v ->
  nth t (where0 c v) 0%Q = if nth t c false then 0%Q else nth t v 0%Q.
Proof.
  revert v t; induction c as [|b c IH]; intros [|x v] t Hc Hv;
    simpl in *; try lia.
  destruct t; simpl; auto. apply IH; lia.
Qed.

Lemma length_vadd (a b : vec) :
  length (vadd a b) = Nat.min (length a) (length b).
Proof.
  revert b; induction a as [|x a IH]; intros [|y b]; simpl; auto.
Qed.

Lemma nth_vadd (a b : vec) t :
  t < length a -> t < length b ->
  nth t (vadd a b) 0%Q = (nth t a 0 + nth t b 0)%Q.
Proof.
  revert b t; induction a as [|x a IH]; intros [|y b] t Ha Hb;
    simpl in *; try lia.
  destruct t; simpl; auto. apply IH; lia.
Qed.

Lemma nth_vscale (s : Q) (a : vec) t :
  t < length a -> nth t (vscale s a) 0%Q = (s * nth t a 0)%Q.
Proof.
  intros H. unfold vscale.
  rewrite (nth_indep _ _ ((fun x => s * x) 0)%Q) by (rewrite length_map; lia).
  apply map_nth.
Qed.

Lemma length_roll_back {A} (l : list A) : length (roll_back l) = length l.
Proof.
  destruct l; simpl; auto. rewrite length_app; simpl; lia.
Qed.

Lemma nth_roll_back {A} (l : list A) (d : A) t :
  S t < length l -> nth t (roll_back l) d = nth (S t) l d.
Proof.
  destruct l as [|x l]; simpl; intros H; [lia|].
  apply app_nth1; lia.
Qed.

(** The value reached by [argmax_from] bounds every value it has seen. *)
Lemma argmax_from_max i best bv (l : vec) :
  exists v,
    ((argmax_from i best bv l = best /\ v = bv)
     \/ exists k, k < length l /\ argmax_from i best bv l = i + k
                  /\ nth k l 0%Q = v)
    /\ (bv <= v)%Q /\ Forall (fun x => x <= v)%Q l.
Proof.
  revert i best bv; induction l as [|x l IH]; intros i best bv; simpl.
  - exists bv. split; [left; auto|split; [apply Qle_refl|constructor]].
  - destruct (Qlt_le_dec bv x) as [Hlt|Hle].
    + destruct (IH (S i) i x) as (v & Hres & Hxv & Hall).
      exists v. split; [|split; [eapply Qle_trans; [apply Qlt_le_weak; eauto|auto]
                              |constructor; auto]].
      right. destruct Hres as [[-> ->]|(k & Hk & -> & Hn)].
      * exists 0. simpl. repeat split; auto; lia.
      * exists (S k). simpl. repeat split; auto; lia.
    + destruct (IH (S i) best bv) as (v & Hres & Hbv & Hall).
      exists v. split; [|split; [auto|constructor; auto; eapply Qle_trans; eauto]].
      destruct Hres as [[-> ->]|(k & Hk & -> & Hn)].
      * left; auto.
      * right. exists (S k). simpl. repeat split; auto; lia.
Qed.

(** [argmax] picks an index of the row whose value is maximal. *)
Lemma argmax_max (r : vec) :
  r <> [] ->
  argmax r < length r /\
  forall b, b < length r -> (nth b r 0 <= nth (argmax r) r 0)%Q.
Proof.
  destruct r as [|x r]; [congruence|intros _].
  change (argmax (x :: r)) with (argmax_from 1 0 x r).
  destruct (argmax_from_max 1 0 x r) as (v & Hres & Hxv & Hall).
  assert (Hval : argmax_from 1 0 x r < S (length r) /\
                 nth (argmax_from 1 0 x r) (x :: r) 0%Q = v).
  { destruct Hres as [[-> ->]|(k & Hk & -> & Hn)]; simpl; split; auto; lia. }
  destruct Hval as [Hlt Hv]. split; [exact Hlt|].
  intros [|b] Hb; rewrite Hv; simpl in *; auto.
  rewrite List.Forall_forall in Hall. apply Hall, nth_In. lia.
Qed.

End TensorFacts.

Module POE_ADQN_Facts.
Import Tensor TensorFacts POE_ADQN.

Lemma nth_pred_length_last {A} (l : list A) (d : A) :
  nth (pred (length l)) l d = List.last l d.
Proof.
  induction l as [|x l IH]; simpl; auto.
  destruct l as [|y l]; simpl in *; auto.
Qed.

(** A step that is not done is not the last one of an episode ending in a
    done step. *)
Lemma not_done_not_last (dones : list bool) t :
  List.last dones false = true -> t < length dones ->
  nth t dones false = false -> S t < length dones.
Proof.
  intros Hlast Ht Hd.
  destruct (Nat.eq_dec (S t) (length dones)) as [He|]; [|lia].
  replace t with (pred (length dones)) in Hd by lia.
  rewrite nth_pred_length_last in Hd. congruence.
Qed.

Lemma nth_map_seq (f : nat -> Q) n t :
  t < n -> nth t (map f (seq 0 n)) 0%Q = f t.
Proof.
  intros H.
  rewrite (nth_indep _ _ (f 0)) by (rewrite length_map, length_seq; lia).
  rewrite map_nth, seq_nth by lia. reflexivity.
Qed.

(** The target built in [qhs_loss] (and in [qh_loss], see
    [qh_loss_target_eq]) is the TD target of [td_target_spec] on every
    episode ending in a done step. *)
Lemma qhs_target_spec {Obs St} (ep : Episode Obs St) (tqh tqhs : mat)
    (discount : Q) :
  length (rewards ep) = length (dones ep) ->
  length tqh = length (dones ep) ->
  length tqhs = length (dones ep) ->
  List.last (dones ep) false = true ->
  qhs_loss_target ep tqh tqhs discount = td_target_spec ep tqh tqhs discount.
Proof.
  intros Hr Hq Hqs Hlast.
  assert (Hg : length (gather tqhs (argmax_rows tqh)) = length (dones ep)).
  { rewrite length_gather. unfold argmax_rows. rewrite length_map. lia. }
  assert (Hw : length (where0 (dones ep)
                 (roll_back (gather tqhs (argmax_rows tqh))))
               = length (dones ep)).
  { rewrite length_where0, length_roll_back, Hg. lia. }
  unfold qhs_loss_target, td_target_spec.
  apply nth_ext with (d := 0%Q) (d' := 0%Q).
  - rewrite length_vadd. unfold vscale. rewrite length_map, Hw, length_map,
      length_seq. lia.
  - intros t Ht.
    rewrite length_vadd in Ht. unfold vscale in Ht.
    rewrite length_map, Hw in Ht.
    assert (Htn : t < length (dones ep)) by lia.
    rewrite nth_map_seq by exact Htn.
    rewrite nth_vadd by (try (unfold vscale; rewrite length_map); lia).
    rewrite nth_vscale by lia.
    rewrite nth_where0 by (try rewrite length_roll_back; lia).
    destruct (nth t (dones ep) false) eqn:Hd; [reflexivity|].
    pose proof (not_done_not_last _ _ Hlast Htn Hd) as HS.
    rewrite nth_roll_back by lia.
    rewrite nth_gather by (unfold argmax_rows; try rewrite length_map; lia).
    unfold argmax_rows.
    rewrite (nth_indep _ 0 (argmax [])) by (rewrite length_map; lia).
    rewrite map_nth. reflexivity.
Qed.

Lemma fold_left_Qplus (l : list Q) (a : Q) :
  (fold_left Qplus l a == a + qsum l)%Q.
Proof.
  revert a; induction l as [|x l IH]; intros a; simpl.
  - ring.
  - rewrite IH. ring.
Qed.

(** [roll(1, 0)] brings the last row to the front. *)
Lemma roll_fwd_snoc {A} (l : list A) (x : A) :
  roll_fwd (l ++ [x]) = x :: l.
Proof.
  unfold roll_fwd. rewrite rev_app_distr. simpl. rewrite rev_involutive.
  reflexivity.
Qed.

Lemma cat_rows_map_combine {Obs St Hidden} (models : Models Obs St Hidden)
    (acts : list nat) (obs : list Obs) :
  length acts = length obs ->
  cat_rows (map (action_model models) acts) (map (observation_model models) obs)
  = map (fun '(a, o) => action_model models a ++ observation_model models o)
      (combine acts obs).
Proof.
  revert obs; induction acts as [|a acts IH]; intros [|o obs] H;
    simpl in *; try lia; auto.
  rewrite IH by lia. reflexivity.
Qed.

(** [step] calls thread the hidden state through the history model as one
    batched call on the same inputs does. *)
Lemma tp_step_features_history_seq {Obs St Hidden}
    (models : Models Obs St Hidden) (p : TargetPolicy Hidden)
    (steps : list (nat * Obs)) :
  tp_step_features models p steps
  = history_seq models (tp_hidden p)
      (map (fun '(a, o) => action_model models a ++ observation_model models o)
         steps).
Proof.
  revert p; induction steps as [|[a o] steps IH]; intros p; simpl; auto.
  unfold tp_step, tp_update. simpl.
  destruct (history_model models (tp_hidden p)
              (action_model models a ++ observation_model models o)) as [y h].
  simpl. rewrite IH. reflexivity.
Qed.

(** On a freshly constructed [TargetPolicy], the sequential features agree
    with the batched ones of [compute_q_values]. *)
Lemma compute_history_fresh_policy {Obs St Hidden}
    (models : Models Obs St Hidden) (acts : list nat) (o0 : Obs)
    (obs : list Obs) (a_last : nat) :
  length acts = length obs ->
  length (action_model models a_last) = action_dim models ->
  compute_history models (acts ++ [a_last]) (o0 :: obs)
  = tp_episode_features models tp_init o0 (combine acts obs).
Proof.
  intros Hlen Hdim.
  unfold compute_history, history_inputs, tp_episode_features.
  rewrite map_app. simpl. rewrite roll_fwd_snoc. simpl.
  rewrite cat_rows_map_combine by exact Hlen.
  unfold tp_reset, tp_update. simpl.
  assert (Hz : zeros_like (action_model models a_last)
               = repeat 0%Q (action_dim models)).
  { unfold zeros_like. rewrite <- Hdim. clear.
    induction (action_model models a_last); simpl; congruence. }
  rewrite Hz.
  destruct (history_model models None
              (repeat 0%Q (action_dim models) ++ observation_model models o0))
    as [y h].
  simpl. rewrite tp_step_features_history_seq. reflexivity.
Qed.

(** [tp_run] sees the trace only through its actions and observations. *)
Lemma tp_run_projection {Obs St Hidden} (models : Models Obs St Hidden)
    (p : TargetPolicy Hidden) (o0 : Obs) (s0 : St)
    (trace : list (nat * Obs * St)) :
  tp_run models p o0 s0 trace
  = fold_left (fun q '(a, o) => tp_step models q a o)
      (map (fun '(a, o, _) => (a, o)) trace) (tp_reset models p o0).
Proof.
  unfold tp_run. generalize (tp_reset models p o0) as q.
  induction trace as [|[[a o] s] trace IH]; intros q; simpl; auto.
Qed.

End POE_ADQN_Facts.

Module POE_ADQN_Claims.
Import Tensor TensorFacts POE_ADQN POE_ADQN_Facts Examples.

(** Claim C1: on every episode whose last step is done, [qhs_loss] is the
    mean squared error between the online [qhs] values at the episode's
    actions and the TD target [rewards[t] + discount * bootstrap[t]], where
    [bootstrap[t]] is 0 on done steps and otherwise the target [qhs] value
    at [t+1] at the action maximising the target [qh] values at [t+1]. *)
Theorem qhs_loss_td_target {Obs St} (ep : Episode Obs St)
    (qh qhs tqh tqhs : mat) (discount : Q) :
  length (rewards ep) = length (dones ep) ->
  length tqh = length (dones ep) ->
  length tqhs = length (dones ep) ->
  List.last (dones ep) false = true ->
  qhs_loss ep qh qhs tqh tqhs discount
  = mse_loss (gather qhs (actions ep)) (td_target_spec ep tqh tqhs discount)
  /\ (forall t, S t < length (dones ep) -> nth (S t) tqh [] <> [] ->
      let row := nth (S t) tqh [] in
      forall b, b < length row -> (nth b row 0 <= nth (argmax row) row 0)%Q).
Proof.
  intros Hr Hq Hqs Hlast. split.
  - unfold qhs_loss. rewrite qhs_target_spec by assumption. reflexivity.
  - intros t _ Hne row b Hb. apply argmax_max; assumption.
Qed.

Lemma qhs_loss_td_target_witness :
  qhs_loss ex_episode [[0; 0]; [0; 0]]%Q [[3; 0]; [4; 0]]%Q
    [[1; 3]; [5; 4]]%Q [[1; 2]; [3; 4]]%Q (1 # 2)
  = mse_loss (gather [[3; 0]; [4; 0]]%Q (actions ex_episode))
      (td_target_spec ex_episode [[1; 3]; [5; 4]]%Q [[1; 2]; [3; 4]]%Q (1 # 2)).
Proof.
  apply (qhs_loss_td_target ex_episode [[0; 0]; [0; 0]]%Q [[3; 0]; [4; 0]]%Q
           [[1; 3]; [5; 4]]%Q [[1; 2]; [3; 4]]%Q (1 # 2));
    reflexivity.
Defined.

(** Claim C3: on a non-empty list of episodes, [episodic_loss] is the mean
    over the episodes (divided by their number) of
    [(qhs_loss + qh_loss) / 2]. *)
Theorem episodic_loss_mean {Obs St Hidden}
    (models target_models : Models Obs St Hidden)
    (episodes : list (Episode Obs St)) (discount : Q) :
  episodes <> [] ->
  (episodic_loss models target_models episodes discount
   == qsum (map (fun ep =>
        let '(qh, qhs) :=
          compute_q_values models (actions ep) (observations ep) (states ep) in
        let '(tqh, tqhs) :=
          compute_q_values target_models (actions ep) (observations ep)
            (states ep) in
        (qhs_loss ep qh qhs tqh tqhs discount
         + qh_loss ep qh qhs tqh tqhs discount) / 2) episodes)
      / inject_Z (Z.of_nat (length episodes)))%Q.
Proof.
  intros _. unfold episodic_loss, py_sum. rewrite length_map.
  apply Qdiv_comp; [|reflexivity].
  rewrite fold_left_Qplus, Qplus_0_l. reflexivity.
Qed.

Lemma episodic_loss_mean_witness :
  (episodic_loss ex_models ex_target_models [ex_episode; ex_episode] (1 # 2)
   == qsum (map (fun ep =>
        let '(qh, qhs) :=
          compute_q_values ex_models (actions ep) (observations ep) (states ep) in
        let '(tqh, tqhs) :=
          compute_q_values ex_target_models (actions ep) (observations ep)
            (states ep) in
        (qhs_loss ep qh qhs tqh tqhs (1 # 2)
         + qh_loss ep qh qhs tqh tqhs (1 # 2)) / 2) [ex_episode; ex_episode])
      / inject_Z (Z.of_nat (length [ex_episode; ex_episode])))%Q.
Proof.
  apply episodic_loss_mean. discriminate.
Defined.

(** Claim C4: [qh_loss] and [qhs_loss] build the same target tensor, element
    for element, and differ only in the online head whose values at the
    episode's actions they regress onto it. *)
Theorem qh_qhs_same_target {Obs St} (ep : Episode Obs St)
    (qh qhs tqh tqhs : mat) (discount : Q) :
  qh_loss_target ep tqh tqhs discount = qhs_loss_target ep tqh tqhs discount
  /\ qhs_loss ep qh qhs tqh tqhs discount
     = mse_loss (gather qhs (actions ep)) (qhs_loss_target ep tqh tqhs discount)
  /\ qh_loss ep qh qhs tqh tqhs discount
     = mse_loss (gather qh (actions ep)) (qhs_loss_target ep tqh tqhs discount).
Proof.
  split; [reflexivity|split; reflexivity].
Qed.

(** Claim C2: two runs of [TargetPolicy] from the same policy state, fed the
    same actions and observations but different environment states, sample
    the same action. *)
Theorem po_sample_action_ignores_states {Obs St Hidden}
    (models : Models Obs St Hidden) (p : TargetPolicy Hidden) (o0 : Obs)
    (s0 s0' : St) (trace trace' : list (nat * Obs * St)) :
  map (fun '(a, o, _) => (a, o)) trace = map (fun '(a, o, _) => (a, o)) trace' ->
  tp_po_sample_action models (tp_run models p o0 s0 trace)
  = tp_po_sample_action models (tp_run models p o0 s0' trace').
Proof.
  intros H. rewrite !tp_run_projection, H. reflexivity.
Qed.

Lemma po_sample_action_ignores_states_witness :
  tp_po_sample_action ex_models
    (tp_run ex_models tp_init 1%Q 5%Q [(1, 2%Q, 3%Q); (0, 4%Q, 6%Q)])
  = tp_po_sample_action ex_models
      (tp_run ex_models tp_init 1%Q 9%Q [(1, 2%Q, 100%Q); (0, 4%Q, 8%Q)]).
Proof.
  apply po_sample_action_ignores_states. reflexivity.
Defined.

(** Claim C8 (code bug): [TargetPolicy.reset] keeps [self.hidden], so a
    policy that has already run an episode starts the next one from the old
    recurrent state, while [compute_q_values] starts every episode from
    [None].  Here the previous episode saw observation 1; the next episode
    (action 0, observation 2) gets history features [[3]] sequentially and
    [[2]] in the batched computation.  On a fresh policy the two agree
    ([compute_history_fresh_policy]). *)
Theorem reset_keeps_hidden_diverges :
  compute_history ex_models [0] [2%Q] = [[2%Q]]
  /\ tp_episode_features ex_models (tp_reset ex_models tp_init 1%Q) 2%Q []
     = [[3%Q]].
Proof.
  split; reflexivity.
Qed.

End POE_ADQN_Claims.

Module MakeModelsClaims.
Import MakeModels.

Lemma strip_prefix_spec (prefix s rest : ustring) :
  strip_prefix prefix s = Some rest <-> s = (prefix ++ rest)%list.
Proof.
  revert s; induction prefix as [|c p IH]; intros s; simpl.
  - split; [intros H; inversion H; reflexivity|intros ->; reflexivity].
  - destruct s as [|d s].
    + split; discriminate.
    + destruct (Nat.eqb_spec c d) as [->|Hne].
      * rewrite IH. split; [intros ->; reflexivity|intros H; inversion H; auto].
      * split; [discriminate|intros H; inversion H; congruence].
Qed.

Lemma fullmatch_digits_spec (unicode_decimal : nat -> bool) (prefix s : ustring) :
  fullmatch_digits unicode_decimal prefix s = true <->
  exists digits, digits <> [] /\ Forall (fun c => unicode_decimal c = true) digits
                 /\ s = (prefix ++ digits)%list.
Proof.
  unfold fullmatch_digits, all_digits. split.
  - destruct (strip_prefix prefix s) as [[|c rest]|] eqn:E; try discriminate.
    intros H. exists (c :: rest). apply strip_prefix_spec in E.
    split; [discriminate|split; [|exact E]].
    apply andb_true_iff in H as [Hc Hr]. constructor; [exact Hc|].
    apply List.Forall_forall. intros x Hx.
    apply forallb_forall with (x := x) in Hr; assumption.
  - intros (d & Hne & Hd & ->).
    assert (E : strip_prefix prefix (prefix ++ d)%list = Some d)
      by (apply strip_prefix_spec; reflexivity).
    rewrite E. destruct d as [|c d]; [congruence|].
    inversion Hd as [|? ? Hc Hr]; subst. rewrite Hc. simpl.
    apply forallb_forall. intros x Hx. rewrite List.Forall_forall in Hr.
    apply Hr, Hx.
Qed.

(** Claim C9: [make_models] returns the box2d module dict, with exactly the
    six keys [action_model], [observation_model], [state_model],
    [history_model], [qh_model], [qhs_model], if and only if the id is
    [CartPole-v], [Acrobot-v] or [LunarLander-v] followed by one or more
    digits (characters [\d] matches: Unicode decimal digits, whatever
    table of them Python uses); on every other id it raises
    [NotImplementedError]. *)
Theorem make_models_dispatch (unicode_decimal : nat -> bool) (env_id : ustring) :
  (make_models unicode_decimal env_id = ModuleDict box2d_keys <->
   exists prefix digits,
     In prefix (map of_ascii ["CartPole-v"; "Acrobot-v"; "LunarLander-v"])
     /\ digits <> []
     /\ Forall (fun c => unicode_decimal c = true) digits
     /\ env_id = (prefix ++ digits)%list)
  /\ (make_models unicode_decimal env_id <> ModuleDict box2d_keys ->
      make_models unicode_decimal env_id = NotImplementedError)
  /\ box2d_keys = ["action_model"; "observation_model"; "state_model";
                   "history_model"; "qh_model"; "qhs_model"]
  /\ NoDup box2d_keys.
Proof.
  split; [|split; [|split; [reflexivity|]]].
  - unfold make_models, make_models_box2d. split.
    + destruct (fullmatch_digits unicode_decimal (of_ascii "CartPole-v") env_id) eqn:E1.
      { intros _. apply fullmatch_digits_spec in E1 as (d & ? & ? & ?).
        exists (of_ascii "CartPole-v"), d. simpl; auto. }
      destruct (fullmatch_digits unicode_decimal (of_ascii "Acrobot-v") env_id) eqn:E2.
      { intros _. apply fullmatch_digits_spec in E2 as (d & ? & ? & ?).
        exists (of_ascii "Acrobot-v"), d. simpl; auto. }
      destruct (fullmatch_digits unicode_decimal (of_ascii "LunarLander-v") env_id) eqn:E3.
      { intros _. apply fullmatch_digits_spec in E3 as (d & ? & ? & ?).
        exists (of_ascii "LunarLander-v"), d. simpl; auto. }
      discriminate.
    + intros (p & d & Hin & Hne & Hd & ->).
      assert (Hm : fullmatch_digits unicode_decimal p (p ++ d)%list = true)
        by (apply fullmatch_digits_spec; eauto).
      simpl in Hin.
      destruct Hin as [<-|[<-|[<-|[]]]]; rewrite Hm;
        rewrite ?orb_true_r; reflexivity.
  - unfold make_models.
    destruct (_ || _ || _); [intros H; exfalso; apply H; reflexivity|auto].
  - apply (bool_decide_unpack _). vm_compute. reflexivity.
Qed.

End MakeModelsClaims.

Module ConfigFacts.
Import ConfigModule.

(** Every Config object points at an allocated dict below [next_loc], and
    the module global, once set, names a Config object. *)
Definition wf (h : Heap) : Prop :=
  (forall c d, config_objs h !! c = Some d ->
               d < next_loc h /\ is_Some (dicts h !! d))
  /\ (forall c, global_config h = Some c -> is_Some (config_objs h !! c)).

Lemma wf_empty : wf empty_heap.
Proof.
  split; simpl; [intros c d H; rewrite lookup_empty in H; discriminate|].
  intros c H; discriminate.
Qed.

Lemma dicts_grow_alloc (m : ConfigDict) (h : Heap) d :
  is_Some (dicts h !! d) -> is_Some (dicts (snd (alloc_dict m h)) !! d).
Proof.
  intros H. simpl. destruct (decide (next_loc h = d)) as [->|Hne].
  - rewrite lookup_insert_eq. eauto.
  - rewrite lookup_insert_ne by exact Hne. exact H.
Qed.

Lemma wf_alloc_dict (m : ConfigDict) (h : Heap) :
  wf h -> wf (snd (alloc_dict m h)).
Proof.
  intros [Hc Hg]. split; simpl.
  - intros c d H. destruct (Hc c d H) as [Hlt Hs]. split; [lia|].
    apply (dicts_grow_alloc m h d Hs).
  - exact Hg.
Qed.

Lemma dict_modify_config_objs f d h :
  config_objs (dict_modify f d h) = config_objs h.
Proof. unfold dict_modify. destruct (dicts h !! d); reflexivity. Qed.

Lemma dict_modify_global f d h :
  global_config (dict_modify f d h) = global_config h.
Proof. unfold dict_modify. destruct (dicts h !! d); reflexivity. Qed.

Lemma dict_modify_next f d h :
  next_loc (dict_modify f d h) = next_loc h.
Proof. unfold dict_modify. destruct (dicts h !! d); reflexivity. Qed.

(** Writing one dict leaves every other dict as it was. *)
Lemma dict_modify_other f d h d' :
  d' <> d -> dicts (dict_modify f d h) !! d' = dicts h !! d'.
Proof.
  intros Hne. unfold dict_modify. destruct (dicts h !! d); simpl; auto.
  rewrite lookup_insert_ne by congruence. reflexivity.
Qed.

Lemma dict_modify_is_Some f d h d' :
  is_Some (dicts h !! d') -> is_Some (dicts (dict_modify f d h) !! d').
Proof.
  intros Hs. destruct (decide (d' = d)) as [->|Hne].
  - unfold dict_modify. destruct (dicts h !! d) eqn:E; simpl.
    + rewrite lookup_insert_eq. eauto.
    + rewrite E. exact Hs.
  - rewrite dict_modify_other by exact Hne. exact Hs.
Qed.

Lemma wf_dict_modify f d h : wf h -> wf (dict_modify f d h).
Proof.
  intros [Hc Hg]. split.
  - intros c d' H. rewrite dict_modify_config_objs in H.
    rewrite dict_modify_next. destruct (Hc c d' H) as [Hlt Hs].
    split; [exact Hlt|apply dict_modify_is_Some; exact Hs].
  - intros c H. rewrite dict_modify_global in H.
    rewrite dict_modify_config_objs. apply Hg, H.
Qed.

Lemma wf_config_new h : wf h -> wf (snd (config_new h)).
Proof.
  intros Hwf. unfold config_new.
  pose proof (wf_alloc_dict ∅ h Hwf) as [Hc Hg].
  simpl in *. split; simpl.
  - intros c d H. destruct (decide (S (next_loc h) = c)) as [<-|Hne].
    + rewrite lookup_insert_eq in H. inversion H; subst. split; [lia|].
      rewrite lookup_insert_eq. eauto.
    + rewrite lookup_insert_ne in H by exact Hne.
      destruct (Hc c d H) as [Hlt Hs]. split; [lia|exact Hs].
  - intros c H. destruct (Hg c H) as [x Hx].
    destruct (decide (S (next_loc h) = c)) as [<-|Hne].
    + rewrite lookup_insert_eq. eauto.
    + rewrite lookup_insert_ne by exact Hne. eauto.
Qed.

Lemma wf_get_config h : wf h -> wf (snd (get_config h)).
Proof.
  intros Hwf. unfold get_config. destruct (global_config h) as [c|] eqn:E.
  - exact Hwf.
  - pose proof (wf_config_new h Hwf) as [Hc Hg].
    destruct (config_new h) as [c h1] eqn:En. simpl in *. split; simpl.
    + exact Hc.
    + intros c' H. inversion H; subst.
      unfold config_new in En. simpl in En. inversion En; subst. simpl.
      rewrite lookup_insert_eq. eauto.
Qed.

Lemma wf_as_dict c h : wf h ->
  match as_dict c h with Some (_, h') => wf h' | None => True end.
Proof.
  intros Hwf. unfold as_dict. destruct (config_dict c h) as [m|]; simpl; auto.
  apply wf_alloc_dict, Hwf.
Qed.

Lemma wf_exec_op h op : wf h -> wf (exec_op h op).
Proof.
  intros Hwf. destruct op as [|c|c o|d o]; simpl.
  - apply wf_get_config, Hwf.
  - pose proof (wf_as_dict c h Hwf) as H.
    destruct (as_dict c h) as [[d h']|]; auto.
  - unfold config_modify. destruct (config_objs h !! c); auto.
    apply wf_dict_modify, Hwf.
  - apply wf_dict_modify, Hwf.
Qed.

Lemma wf_exec ops h : wf h -> wf (exec ops h).
Proof.
  revert h; induction ops as [|op ops IH]; intros h Hwf; simpl; auto.
  apply IH, wf_exec_op, Hwf.
Qed.

(** Once set, the module global keeps its value. *)
Lemma exec_op_global h op c :
  global_config h = Some c -> global_config (exec_op h op) = Some c.
Proof.
  intros H. destruct op as [|c'|c' o|d o]; simpl.
  - unfold get_config. rewrite H. exact H.
  - unfold as_dict. destruct (config_dict c' h); simpl; auto.
  - unfold config_modify. destruct (config_objs h !! c'); auto.
    rewrite dict_modify_global. exact H.
  - rewrite dict_modify_global. exact H.
Qed.

Lemma exec_global ops h c :
  global_config h = Some c -> global_config (exec ops h) = Some c.
Proof.
  revert h; induction ops as [|op ops IH]; intros h H; simpl; auto.
  apply IH, exec_op_global, H.
Qed.

Lemma get_config_sets_global h :
  global_config (snd (get_config h)) = Some (fst (get_config h)).
Proof.
  unfold get_config. destruct (global_config h) eqn:E; simpl; auto.
Qed.

End ConfigFacts.

Module ConfigClaims.
Import ConfigModule ConfigFacts.

Lemma dict_ops_config_dict c d' d muts h :
  config_objs h !! c = Some d' -> d' <> d ->
  config_dict c (dict_ops d muts h) = config_dict c h.
Proof.
  intros Hc Hne. unfold dict_ops.
  revert h Hc; induction muts as [|o muts IH]; intros h Hc; simpl; auto.
  rewrite IH.
  - unfold config_dict. rewrite dict_modify_config_objs, Hc. simpl.
    apply dict_modify_other. exact Hne.
  - rewrite dict_modify_config_objs. exact Hc.
Qed.

(** Every call of [get_config()] after the first, whatever the program did
    in between, returns the object the first call created. *)
Lemma get_config_same_object (ops1 ops2 : list Op) :
  fst (get_config (exec ops2 (snd (get_config (exec ops1 empty_heap)))))
  = fst (get_config (exec ops1 empty_heap)).
Proof.
  pose proof (get_config_sets_global (exec ops1 empty_heap)) as Hg.
  apply (exec_global ops2) in Hg.
  unfold get_config at 1. rewrite Hg. reflexivity.
Qed.

(** [_as_dict()] on the config returns a fresh dict holding the config's
    entries; any writes to that dict leave every value read through the
    config ([_get], attribute access) unchanged. *)
Lemma as_dict_copy (ops : list Op) (muts : list DictOp) :
  let h1 := snd (get_config (exec ops empty_heap)) in
  let c := fst (get_config (exec ops empty_heap)) in
  match as_dict c h1 with
  | Some (d, h2) =>
      dicts h2 !! d = config_dict c h1
      /\ config_objs h1 !! c <> Some d
      /\ (forall name dflt,
            config_get c name dflt (dict_ops d muts h2) = config_get c name dflt h1)
      /\ (forall name,
            config_getattr c name (dict_ops d muts h2) = config_getattr c name h1)
  | None => False
  end.
Proof.
  intros h1 c.
  assert (Hwf : wf h1) by apply wf_get_config, wf_exec, wf_empty.
  assert (Hg : global_config h1 = Some c) by apply get_config_sets_global.
  destruct Hwf as [Hc Hgc].
  destruct (Hgc c Hg) as [d' Hd'].
  destruct (Hc c d' Hd') as [Hlt [m Hm]].
  assert (Hcd : config_dict c h1 = Some m).
  { unfold config_dict. rewrite Hd'. simpl. exact Hm. }
  unfold as_dict. rewrite Hcd.
  change (m' ← Some m; Some (alloc_dict m h1)) with (Some (alloc_dict m h1)).
  destruct (alloc_dict m h1) as [d h2] eqn:Ea.
  unfold alloc_dict in Ea. inversion Ea; subst d h2; clear Ea.
  assert (Hne : d' <> next_loc h1) by lia.
  set (h2 := mkHeap (global_config h1) (config_objs h1)
               (<[next_loc h1:=m]> (dicts h1)) (S (next_loc h1))).
  assert (Hcd2 : config_dict c (dict_ops (next_loc h1) muts h2)
                 = config_dict c h1).
  { rewrite (dict_ops_config_dict c d') by (simpl; auto).
    unfold config_dict. simpl. rewrite Hd'. simpl.
    rewrite lookup_insert_ne by congruence. reflexivity. }
  split; [|split; [|split]].
  - simpl. rewrite lookup_insert_eq. congruence.
  - rewrite Hd'. congruence.
  - intros name dflt. unfold config_get.
    exact (f_equal (fun o => m0 ← o; Some (default dflt (m0 !! name))) Hcd2).
  - intros name. unfold config_getattr.
    exact (f_equal (fun o => m0 ← o; m0 !! name) Hcd2).
Qed.

(** Claim C10: [get_config()] always returns the one module-level Config
    object, created on the first call, and mutating the dict returned by
    its [_as_dict()] leaves every value later read through the Config
    unchanged. *)
Theorem config_singleton_as_dict_copy (ops1 ops2 : list Op)
    (muts : list DictOp) :
  fst (get_config (exec ops2 (snd (get_config (exec ops1 empty_heap)))))
  = fst (get_config (exec ops1 empty_heap))
  /\ (let h1 := snd (get_config (exec ops1 empty_heap)) in
      let c := fst (get_config (exec ops1 empty_heap)) in
      match as_dict c h1 with
      | Some (d, h2) =>
          dicts h2 !! d = config_dict c h1
          /\ config_objs h1 !! c <> Some d
          /\ (forall name dflt,
                config_get c name dflt (dict_ops d muts h2)
                = config_get c name dflt h1)
          /\ (forall name,
                config_getattr c name (dict_ops d muts h2)
                = config_getattr c name h1)
      | None => False
      end).
Proof.
  split; [apply get_config_same_object|apply as_dict_copy].
Qed.

End ConfigClaims.

Module MainA2CFacts.
Import Tensor MainA2C.

(** With period 0, a dispenser fed nondecreasing steps from its start on
    dispenses every time. *)
Lemma dispense_all_period0 (n : nat) (ts : list nat) :
  Sorted.Sorted le ts -> (forall t, In t ts -> n <= t) ->
  dispense_all (mkDispenserState n 0) ts = map (fun _ => true) ts.
Proof.
  intros Hs. revert n. induction Hs as [|t ts Hs IH Hhd]; intros n Hn; simpl; auto.
  unfold dispense. simpl.
  assert (Hnt : n <= t) by (apply Hn; left; auto).
  apply Nat.leb_le in Hnt. rewrite Hnt. simpl.
  rewrite Nat.add_0_r. f_equal. apply IH.
  intros u Hu. apply Sorted.Sorted_StronglySorted in Hs; [|intros ? ? ?; lia].
  destruct Hhd as [|u' ts' Hle]; [contradiction|].
  destruct Hu as [<-|Hu]; [exact Hle|].
  apply Sorted.StronglySorted_inv in Hs as [_ Hall].
  rewrite List.Forall_forall in Hall. specialize (Hall u Hu). lia.
Qed.

Lemma mapM_Some_map {A B} (f : A -> option B) (g : A -> B) (l : list A) :
  (forall x, In x l -> f x = Some (g x)) -> mapM f l = Some (map g l).
Proof.
  induction l as [|x l IH]; intros H; simpl; auto.
  rewrite (H x (or_introl eq_refl)). simpl.
  rewrite IH by (intros y Hy; apply H; right; exact Hy). reflexivity.
Qed.

Lemma average_at_mean (ls : list LossDict) (k : string) :
  (forall l, In l ls -> is_Some (l !! k)) ->
  average_at ls k = Some (loss_mean ls k).
Proof.
  intros H. unfold average_at, loss_mean.
  rewrite (mapM_Some_map _ (fun l : LossDict => default 0%Q (l !! k))).
  - simpl. rewrite length_map. reflexivity.
  - intros l Hl. destruct (H l Hl) as [v Hv]. rewrite Hv. reflexivity.
Qed.

(** When every dict has the keys of the first, [average_losses] maps each
    of those keys to its mean. *)
Lemma average_losses_lookup (l0 : LossDict) (ls : list LossDict) (k : string) :
  (forall l k', In l (l0 :: ls) -> is_Some (l0 !! k') -> is_Some (l !! k')) ->
  is_Some (l0 !! k) ->
  exists m, average_losses (l0 :: ls) = Some m
            /\ m !! k = Some (loss_mean (l0 :: ls) k).
Proof.
  intros Hkeys Hk. unfold average_losses.
  rewrite (mapM_Some_map _ (fun kv : string * Q => (kv.1, loss_mean (l0 :: ls) kv.1))).
  - eexists; split; [reflexivity|].
    apply elem_of_list_to_map_1.
    + rewrite <- list_fmap_compose.
      assert (Hfst : (fst ∘ (fun kv : string * Q => (kv.1, loss_mean (l0 :: ls) kv.1)))
                     = (fst : string * Q -> string)) by reflexivity.
      rewrite Hfst. apply NoDup_fst_map_to_list.
    + destruct Hk as [v Hv].
      apply list_elem_of_fmap. exists (k, v). split; [reflexivity|].
      apply elem_of_map_to_list. exact Hv.
  - intros [k' v] Hin. simpl.
    rewrite average_at_mean; [reflexivity|].
    intros l Hl. apply Hkeys; [exact Hl|].
    apply list_elem_of_In, elem_of_map_to_list in Hin. eauto.
Qed.

Lemma in_when (b : bool) (e e' : EpochEvent) :
  In e' (when b e) <-> b = true /\ e = e'.
Proof. destruct b; simpl; intuition (try congruence). Qed.

Lemma in_epoch_events_evaluation (cf : Controlflow) :
  In RunEvaluation (epoch_events cf) <-> evaluate cf = true.
Proof.
  destruct cf as [[] [] [] []]; unfold epoch_events, when; simpl;
    intuition discriminate.
Qed.

Lemma in_epoch_events_log (cf : Controlflow) :
  In LogXStats (epoch_events cf) <-> log_data cf = true.
Proof.
  destruct cf as [[] [] [] []]; unfold epoch_events, when; simpl;
    intuition discriminate.
Qed.

Lemma in_epoch_events_target (cf : Controlflow) :
  In UpdateTargetParameters (epoch_events cf) <-> update_target_parameters cf = true.
Proof.
  destruct cf as [[] [] [] []]; unfold epoch_events, when; simpl;
    intuition discriminate.
Qed.

End MainA2CFacts.

Module MainA2CClaims.
Import Tensor MainA2C MainA2CFacts Examples.

Section Driver.

Context {Env Algo StateDict DataLogger Timer Averages TimeDispenser
  TargetUpdater Factories Device Schedule QEstimator Episode CfgDict : Type}.

Variable make_env : A2CConfig -> Env.
Variable make_a2c_algorithm : A2CConfig -> Algo.
Variable algo_state_dict : Algo -> StateDict.
Variable algo_load_state_dict : Algo -> StateDict -> Algo.
Variable new_datalogger : DataLogger.
Variable new_timer : Timer.
Variable new_xstats : XStats.
Variable new_averages : Averages.
Variable new_time_dispenser : nat -> TimeDispenser.
Variable time_dispense : TimeDispenser -> bool * TimeDispenser.
Variable make_target_updater : A2CConfig -> TargetUpdater.
Variable make_factories : A2CConfig -> Env -> Algo -> Factories.
Variable get_device : A2CConfig -> Device.
Variable make_schedule : A2CConfig -> Schedule.
Variable q_estimator_factory : A2CConfig -> QEstimator.
Variable config_as_dict : A2CConfig -> CfgDict.
Variable compute_losses : Algo -> Episode -> Q -> QEstimator -> LossDict.
Variable schedule_value : Schedule -> nat -> Q.

Local Abbreviation make_runstate' :=
  (make_runstate make_env make_a2c_algorithm algo_load_state_dict
     new_datalogger new_timer new_xstats new_averages new_time_dispenser
     time_dispense make_target_updater make_factories get_device
     make_schedule q_estimator_factory).

Local Abbreviation make_checkpoint' :=
  (make_checkpoint (Env := Env) (TargetUpdater := TargetUpdater)
     (Factories := Factories) (Device := Device) (Schedule := Schedule)
     (QEstimator := QEstimator) algo_state_dict config_as_dict).

(** [load_state_dict] followed by [state_dict] gives back the dict loaded
    (the contract of torch modules). *)
Hypothesis state_dict_load_state_dict :
  forall a sd, algo_state_dict (algo_load_state_dict a sd) = sd.

(** Claim C5: a checkpoint holds the algorithm's state dict, the data
    logger, timer, xstats, averages and dispensers of the run state, with
    the config dict and the wandb run id as metadata; [make_runstate] on it
    gives a run state whose six components are those of the original. *)
Theorem checkpoint_roundtrip (config config' : A2CConfig)
    (rs rs' : Runstate Env Algo DataLogger Timer Averages TimeDispenser
                TargetUpdater Factories Device Schedule QEstimator) :
  make_runstate' config' (Some (make_checkpoint' config rs)) = Some rs' ->
  make_checkpoint' config rs
  = mkCheckpoint (mkCheckpointMetadata (config_as_dict config)
                    (wandb_run_id config))
      (mkCheckpointData (algo_state_dict (rs_algo rs)) (rs_datalogger rs)
         (rs_timer rs) (rs_xstats rs) (rs_averages rs) (rs_dispensers rs))
  /\ algo_state_dict (rs_algo rs') = algo_state_dict (rs_algo rs)
  /\ rs_datalogger rs' = rs_datalogger rs
  /\ rs_timer rs' = rs_timer rs
  /\ rs_xstats rs' = rs_xstats rs
  /\ rs_averages rs' = rs_averages rs
  /\ rs_dispensers rs' = rs_dispensers rs.
Proof.
  intros H. split; [reflexivity|].
  unfold make_runstate in H.
  destruct (make_target_update_dispenser config'); [|discriminate].
  simpl in H. destruct (Nat.eqb (num_data_logs config') 0); [discriminate|].
  injection H as <-. simpl.
  rewrite state_dict_load_state_dict. repeat split.
Qed.

(** Claim C6: the actor objective is [losses['policy'] + w *
    losses['negentropy']] with [w] the negentropy schedule at the current
    [simulation_timesteps], the critic objective is [losses['critic']], and
    each of these losses is the mean over the episodes of the per-episode
    losses computed with the training discount (the per-episode dicts
    sharing their keys, as [average_losses] requires). *)
Theorem run_training_objectives_mean (config : A2CConfig)
    (rs : Runstate Env Algo DataLogger Timer Averages TimeDispenser
            TargetUpdater Factories Device Schedule QEstimator)
    (episodes : list Episode) :
  let losses := map (fun ep => compute_losses (rs_algo rs) ep
                                 (training_discount config) (rs_q_estimator rs))
                  episodes in
  let w := schedule_value (rs_negentropy_schedule rs)
             (simulation_timesteps (rs_xstats rs)) in
  episodes <> [] ->
  (forall l l' k, In l losses -> In l' losses -> is_Some (l !! k) ->
                  is_Some (l' !! k)) ->
  (forall l, In l losses ->
     is_Some (l !! "policy"%string) /\ is_Some (l !! "negentropy"%string)
     /\ is_Some (l !! "critic"%string)) ->
  run_training_objectives compute_losses schedule_value config rs episodes
  = Some (mkObjectives
            (loss_mean losses "policy" + w * loss_mean losses "negentropy")%Q
            (loss_mean losses "critic")).
Proof.
  intros losses w Hne Hkeys Hpnc.
  destruct episodes as [|ep eps]; [congruence|].
  unfold run_training_objectives. fold losses.
  assert (Hl : losses = compute_losses (rs_algo rs) ep (training_discount config)
                          (rs_q_estimator rs) :: map (fun ep => compute_losses
                          (rs_algo rs) ep (training_discount config)
                          (rs_q_estimator rs)) eps) by reflexivity.
  revert Hkeys Hpnc. rewrite Hl. clear Hl. fold w.
  set (l0 := compute_losses (rs_algo rs) ep (training_discount config)
               (rs_q_estimator rs)).
  set (ls := map (fun ep => compute_losses (rs_algo rs) ep
                   (training_discount config) (rs_q_estimator rs)) eps).
  intros Hkeys Hpnc.
  assert (Hk : forall l k, In l (l0 :: ls) -> is_Some (l0 !! k) -> is_Some (l !! k)).
  { intros l k Hin. apply Hkeys; [left; reflexivity|exact Hin]. }
  destruct (Hpnc l0 (or_introl eq_refl)) as (Hp & Hn & Hc).
  destruct (average_losses_lookup l0 ls _ Hk Hp) as (m & Hm & Hmp).
  destruct (average_losses_lookup l0 ls _ Hk Hn) as (m' & Hm' & Hmn).
  destruct (average_losses_lookup l0 ls _ Hk Hc) as (m'' & Hm'' & Hmc).
  rewrite Hm' in Hm. injection Hm as <-.
  rewrite Hm'' in Hm'. injection Hm' as <-.
  rewrite Hm''. simpl. rewrite Hmp, Hmn, Hmc. reflexivity.
Qed.

(** Claim C7: evaluation runs exactly when the evaluation flag is set and
    the epoch is a multiple of [evaluation_period]; data logging and target
    updates happen exactly when their dispensers dispense at the current
    [simulation_timesteps]; the datalog dispenser has period
    [max_simulation_timesteps // num_data_logs], the target-update
    dispenser [target_update_full_period] for 'full' and 0 for 'polyak',
    and a period-0 dispenser dispenses at every epoch (nondecreasing
    steps). *)
Theorem controlflow_gating (config : A2CConfig)
    (rs : Runstate Env Algo DataLogger Timer Averages TimeDispenser
            TargetUpdater Factories Device Schedule QEstimator)
    (ts : list nat) :
  0 < evaluation_period config ->
  (match update_controlflow config rs with
   | Some (cf, rs2) =>
       let t := simulation_timesteps (rs_xstats rs) in
       (In RunEvaluation (epoch_events cf)
        <-> evaluation config = true
            /\ Nat.modulo (epoch (rs_xstats rs)) (evaluation_period config) = 0)
       /\ (In LogXStats (epoch_events cf)
           <-> fst (dispense (datalog (rs_dispensers rs)) t) = true)
       /\ (In UpdateTargetParameters (epoch_events cf)
           <-> fst (dispense (target_update (rs_dispensers rs)) t) = true)
       /\ rs_dispensers rs2
          = mkRunstateDispensers (snd (dispense (target_update (rs_dispensers rs)) t))
              (snd (dispense (datalog (rs_dispensers rs)) t))
              (checkpoint (rs_dispensers rs))
   | None => False
   end)
  /\ (forall rs0, make_runstate' config
                      (None : option (Checkpoint StateDict DataLogger Timer
                                        Averages TimeDispenser CfgDict))
                    = Some rs0 ->
        datalog (rs_dispensers rs0)
        = mkDispenser 0 (Nat.div (max_simulation_timesteps config)
                                 (num_data_logs config))
        /\ ((target_update_function config = "full"%string
             /\ target_update (rs_dispensers rs0)
                = mkDispenser 0 (target_update_full_period config))
            \/ (target_update_function config = "polyak"%string
                /\ target_update (rs_dispensers rs0) = mkDispenser 0 0)))
  /\ (Sorted.Sorted le ts ->
      dispense_all (mkDispenser 0 0) ts = map (fun _ => true) ts).
Proof.
  intros Hp. split; [|split].
  - unfold update_controlflow.
    destruct (dispense (datalog (rs_dispensers rs))
                (simulation_timesteps (rs_xstats rs))) as [ld dl'] eqn:E1.
    destruct (dispense (target_update (rs_dispensers rs))
                (simulation_timesteps (rs_xstats rs))) as [ut tu'] eqn:E2.
    assert (Hz : Nat.eqb (evaluation_period config) 0 = false)
      by (apply Nat.eqb_neq; lia).
    rewrite Hz. simpl.
    rewrite in_epoch_events_evaluation, in_epoch_events_log,
      in_epoch_events_target. simpl.
    split; [|split; [|split]]; try reflexivity.
    rewrite andb_true_iff, Nat.eqb_eq. tauto.
  - intros rs0 H. unfold make_runstate, make_target_update_dispenser in H.
    destruct (String.eqb_spec (target_update_function config) "full") as [Hf|Hf].
    + simpl in H. destruct (Nat.eqb (num_data_logs config) 0); [discriminate|].
      injection H as <-. simpl. split; [reflexivity|left; auto].
    + destruct (String.eqb_spec (target_update_function config) "polyak")
        as [Hq|Hq]; [|discriminate].
      simpl in H. destruct (Nat.eqb (num_data_logs config) 0); [discriminate|].
      injection H as <-. simpl. split; [reflexivity|right; auto].
  - intros Hs. apply dispense_all_period0; [exact Hs|intros; lia].
Qed.

End Driver.

(** Resuming from a checkpoint of [ex_runstate], under another
    configuration and with fresh counters at zero, gives back its state
    dict, counters and dispensers. *)
Lemma checkpoint_roundtrip_witness :
  rs_xstats ex_runstate = ex_xstats
  /\ rs_dispensers ex_runstate
     = mkRunstateDispensers (mkDispenserState 250 0) (mkDispenserState 300 100) tt.
Proof.
  destruct (checkpoint_roundtrip
              (fun _ : A2CConfig => tt) (fun _ : A2CConfig => 0)
              (fun a : nat => a) (fun (_ : nat) (sd : nat) => sd)
              tt tt (mkXStats 0 0 0 0 0 0) tt (fun _ : nat => tt) ex_time_dispense
              (fun _ : A2CConfig => tt) (fun (_ : A2CConfig) (_ : unit) (_ : nat) => tt)
              (fun _ : A2CConfig => tt) (fun _ : A2CConfig => tt)
              (fun _ : A2CConfig => tt) (fun _ : A2CConfig => tt)
              (fun _ _ => eq_refl) ex_config ex_config_resume ex_runstate
              ex_runstate ltac:(reflexivity))
    as (_ & _ & _ & _ & Hx & _ & Hd).
  split; [exact Hx|exact Hd].
Defined.

Lemma run_training_objectives_mean_witness :
  run_training_objectives ex_compute_losses ex_schedule_value ex_config
    ex_runstate [3; 5]%nat
  = Some (mkObjectives
            (loss_mean (map (fun ep => ex_compute_losses 7 ep (99 # 100) tt) [3; 5]%nat)
               "policy"
             + ex_schedule_value tt 250
               * loss_mean (map (fun ep => ex_compute_losses 7 ep (99 # 100) tt)
                              [3; 5]%nat) "negentropy")%Q
            (loss_mean (map (fun ep => ex_compute_losses 7 ep (99 # 100) tt) [3; 5]%nat)
               "critic")).
Proof.
  apply (run_training_objectives_mean ex_compute_losses ex_schedule_value
           ex_config ex_runstate [3; 5]%nat).
  - discriminate.
  - intros l l' k Hl Hl' Hk. simpl in Hl, Hl'.
    destruct Hl as [<-|[<-|[]]]; destruct Hl' as [<-|[<-|[]]];
      unfold ex_compute_losses in *;
      rewrite !lookup_insert_is_Some' in *;
      destruct Hk as [?|[?|[?|Hk]]]; auto;
      rewrite lookup_empty in Hk; destruct Hk as [? Hk]; discriminate.
  - intros l Hl. simpl in Hl.
    destruct Hl as [<-|[<-|[]]]; repeat split; eexists; reflexivity.
Defined.

Lemma controlflow_gating_witness :
  match update_controlflow ex_config ex_runstate with
  | Some (cf, _) => In RunEvaluation (epoch_events cf)
  | None => False
  end.
Proof.
  pose proof (controlflow_gating (Episode := nat) (CfgDict := unit)
                (fun _ : A2CConfig => tt) (fun _ : A2CConfig => 0)
                (fun (_ : nat) (sd : nat) => sd)
                tt tt ex_xstats tt (fun _ : nat => tt) ex_time_dispense
                (fun _ : A2CConfig => tt)
                (fun (_ : A2CConfig) (_ : unit) (_ : nat) => tt)
                (fun _ : A2CConfig => tt) (fun _ : A2CConfig => tt)
                (fun _ : A2CConfig => tt) (fun _ : A2CConfig => tt)
                ex_compute_losses ex_schedule_value
                ex_config ex_runstate [] ltac:(vm_compute; lia)) as [H _].
  destruct (update_controlflow ex_config ex_runstate) as [[cf rs2]|];
    [|contradiction].
  destruct H as [[_ Hev] _]. apply Hev. split; reflexivity.
Defined.

End MainA2CClaims.

(* ================================================================== *)
(** * Further properties of the code *)

Module POE_ADQN_MoreFacts.
Import Tensor TensorFacts POE_ADQN POE_ADQN_Facts.

(** [argmax_from] either keeps [best], when nothing later exceeds [bv], or
    moves to a later index holding a value above [bv] and above every
    value before it. *)
Lemma argmax_from_first i best bv (l : vec) :
  (argmax_from i best bv l = best /\ Forall (fun x => x <= bv)%Q l)
  \/ exists j, argmax_from i best bv l = i + j /\ j < length l
       /\ (bv < nth j l 0)%Q
       /\ forall b, b < j -> (nth b l 0 < nth j l 0)%Q.
Proof.
  revert i best bv; induction l as [|x l IH]; intros i best bv; simpl.
  - left. split; [reflexivity|constructor].
  - destruct (Qlt_le_dec bv x) as [Hlt|Hle].
    + destruct (IH (S i) i x) as [[Hr Hall]|(j & Hr & Hj & Hxj & Hb)].
      * right. exists 0. rewrite Hr. split; [lia|]. split; [simpl; lia|].
        split; [exact Hlt|]. intros b Hb; lia.
      * right. exists (S j). rewrite Hr. split; [lia|]. split; [simpl; lia|].
        split; [simpl; eapply Qlt_trans; eauto|].
        intros [|b] Hb'; simpl; [exact Hxj|apply Hb; lia].
    + destruct (IH (S i) best bv) as [[Hr Hall]|(j & Hr & Hj & Hbj & Hb)].
      * left. split; [exact Hr|constructor; auto].
      * right. exists (S j). rewrite Hr. split; [lia|]. split; [simpl; lia|].
        split; [simpl; exact Hbj|].
        intros [|b] Hb'; simpl; [eapply Qle_lt_trans; eauto|apply Hb; lia].
Qed.

(** [argmax] returns the first index of a maximal value: every earlier
    value is strictly smaller. *)
Lemma argmax_first (r : vec) :
  forall b, b < argmax r -> (nth b r 0 < nth (argmax r) r 0)%Q.
Proof.
  destruct r as [|x r]; [simpl; intros b Hb; lia|].
  change (argmax (x :: r)) with (argmax_from 1 0 x r).
  destruct (argmax_from_first 1 0 x r) as [[-> _]|(j & -> & Hj & Hxj & Hb)].
  - intros b Hb; lia.
  - intros [|b] Hb'; simpl; [exact Hxj|apply Hb; lia].
Qed.

Lemma tp_step_history_some {Obs St Hidden} (models : Models Obs St Hidden)
    (p : TargetPolicy Hidden) a o :
  is_Some (tp_history_features (tp_step models p a o)).
Proof.
  unfold tp_step, tp_update.
  destruct (history_model models _ _) as [y h]. simpl. eauto.
Qed.

Lemma tp_run_steps_history_some {Obs St Hidden} (models : Models Obs St Hidden)
    (p : TargetPolicy Hidden) (o0 : Obs) (steps : list (nat * Obs)) :
  is_Some (tp_history_features (tp_run_steps models p o0 steps)).
Proof.
  unfold tp_run_steps.
  assert (H0 : is_Some (tp_history_features (tp_reset models p o0))).
  { unfold tp_reset, tp_update.
    destruct (history_model models _ _) as [y h]. simpl. eauto. }
  revert H0. generalize (tp_reset models p o0) as q.
  induction steps as [|[a o] steps IH]; intros q Hq; simpl; auto.
  apply IH, tp_step_history_some.
Qed.

(** The behaviour policy forwards [reset] and [step] to its target policy
    and keeps its [epsilon]. *)
Lemma bp_run_target {Obs St Hidden} (models : Models Obs St Hidden)
    (b : BehaviorPolicy Hidden) (o0 : Obs) (steps : list (nat * Obs)) :
  bp_target_policy (bp_run models b o0 steps)
  = tp_run_steps models (bp_target_policy b) o0 steps
  /\ bp_epsilon (bp_run models b o0 steps) = bp_epsilon b.
Proof.
  unfold bp_run, tp_run_steps.
  assert (Hr : bp_target_policy (bp_reset models b o0)
               = tp_reset models (bp_target_policy b) o0
               /\ bp_epsilon (bp_reset models b o0) = bp_epsilon b)
    by (split; reflexivity).
  revert Hr. generalize (bp_reset models b o0) as b0.
  generalize (tp_reset models (bp_target_policy b) o0) as q0.
  induction steps as [|[a o] steps IH]; intros q0 b0 [Hq He]; simpl; auto.
  apply IH. unfold bp_step. simpl. rewrite Hq. split; [reflexivity|exact He].
Qed.

Lemma nth_roll_back_last {A} (l : list A) (d : A) :
  l <> [] -> nth (pred (length l)) (roll_back l) d = nth 0 l d.
Proof.
  destruct l as [|x l]; [congruence|intros _]. simpl.
  rewrite app_nth2 by lia. replace (length l - length l) with 0 by lia.
  reflexivity.
Qed.

Lemma qsum_nonneg (l : vec) :
  Forall (fun x => 0 <= x)%Q l -> (0 <= qsum l)%Q.
Proof.
  induction 1 as [|x l Hx Hl IH]; simpl; [apply Qle_refl|].
  lra.
Qed.

Lemma sq_diffs_nonneg (a b : vec) :
  Forall (fun x => 0 <= x)%Q (sq_diffs a b).
Proof.
  revert b; induction a as [|x a IH]; intros [|y b]; simpl; constructor; auto.
  set (z := (x - y)%Q). nra.
Qed.

Lemma inject_nat_nonneg (n : nat) : (0 <= inject_Z (Z.of_nat n))%Q.
Proof. unfold Qle; simpl; lia. Qed.

Lemma mse_loss_nonneg (a b : vec) : (0 <= mse_loss a b)%Q.
Proof.
  unfold mse_loss, Qdiv. apply Qmult_le_0_compat.
  - apply qsum_nonneg, sq_diffs_nonneg.
  - apply Qinv_le_0_compat, inject_nat_nonneg.
Qed.

Lemma fold_left_Qplus_nonneg (l : list Q) (a : Q) :
  (0 <= a)%Q -> Forall (fun x => 0 <= x)%Q l -> (0 <= fold_left Qplus l a)%Q.
Proof.
  intros Ha Hl. revert a Ha; induction Hl as [|x l Hx Hl IH]; intros a Ha;
    simpl; auto.
  apply IH. lra.
Qed.

Lemma episode_loss_nonneg {Obs St Hidden} (models target_models : Models Obs St Hidden)
    (discount : Q) (ep : Episode Obs St) :
  (0 <= episode_loss models target_models discount ep)%Q.
Proof.
  unfold episode_loss.
  destruct (compute_q_values models _ _ _) as [qh qhs].
  destruct (compute_q_values target_models _ _ _) as [tqh tqhs].
  pose proof (mse_loss_nonneg (gather qhs (actions ep))
                (qhs_loss_target ep tqh tqhs discount)).
  pose proof (mse_loss_nonneg (gather qh (actions ep))
                (qh_loss_target ep tqh tqhs discount)).
  unfold qhs_loss, qh_loss. cbv zeta. unfold Qdiv.
  apply Qmult_le_0_compat; [lra|unfold Qle; simpl; lia].
Qed.

Lemma length_history_seq {Obs St Hidden} (m : Models Obs St Hidden)
    (h : option Hidden) (xs : list vec) :
  length (history_seq m h xs) = length xs.
Proof.
  revert h; induction xs as [|x xs IH]; intros h; simpl; auto.
  destruct (history_model m h x) as [y h']. simpl. rewrite IH. reflexivity.
Qed.

Lemma length_roll_fwd {A} (l : list A) : length (roll_fwd l) = length l.
Proof.
  unfold roll_fwd. rewrite <- (length_rev l).
  destruct (rev l) as [|x r]; simpl; rewrite ?length_rev; reflexivity.
Qed.

Lemma length_zero_first_row (m : mat) : length (zero_first_row m) = length m.
Proof. destruct m; reflexivity. Qed.

Lemma length_cat_rows (a b : mat) :
  length (cat_rows a b) = Nat.min (length a) (length b).
Proof.
  revert b; induction a as [|x a IH]; intros [|y b]; simpl; auto.
Qed.

End POE_ADQN_MoreFacts.

Module POE_ADQN_Extra.
Import Tensor TensorFacts POE_ADQN POE_ADQN_Facts POE_ADQN_MoreFacts Examples.

(** [TargetPolicy.po_sample_action] raises before the first [reset]; after
    [reset] and any [step]s it returns the first index of a maximal entry
    of the Q-values [qh_model(history_features)], whenever the network
    gives a non-empty vector. *)
Theorem po_sample_action_first_argmax {Obs St Hidden}
    (models : Models Obs St Hidden) (p : TargetPolicy Hidden) (o0 : Obs)
    (steps : list (nat * Obs)) :
  (forall x, qh_model models x <> []) ->
  tp_po_sample_action models tp_init = None
  /\ exists hf a,
       tp_history_features (tp_run_steps models p o0 steps) = Some hf
       /\ tp_po_sample_action models (tp_run_steps models p o0 steps) = Some a
       /\ a < length (qh_model models hf)
       /\ (forall b, b < length (qh_model models hf) ->
             (nth b (qh_model models hf) 0 <= nth a (qh_model models hf) 0)%Q)
       /\ (forall b, b < a ->
             (nth b (qh_model models hf) 0 < nth a (qh_model models hf) 0)%Q).
Proof.
  intros Hne. split; [reflexivity|].
  destruct (tp_run_steps_history_some models p o0 steps) as [hf Hhf].
  exists hf, (argmax (qh_model models hf)).
  destruct (argmax_max (qh_model models hf) (Hne hf)) as [Hlt Hmax].
  split; [exact Hhf|]. split; [unfold tp_po_sample_action; rewrite Hhf; reflexivity|].
  split; [exact Hlt|]. split; [exact Hmax|]. apply argmax_first.
Qed.

Lemma po_sample_action_first_argmax_witness :
  tp_po_sample_action ex_models (tp_run_steps ex_models tp_init 1%Q [(1, 2%Q)])
  = Some 0.
Proof.
  destruct (po_sample_action_first_argmax ex_models tp_init 1%Q [(1, 2%Q)])
    as [_ (hf & a & Hhf & Ha & _)].
  - intros x. destruct x; simpl; discriminate.
  - rewrite Ha. vm_compute in Ha. symmetry. exact Ha.
Defined.

(** [BehaviorPolicy] forwards [reset] and [step] to its target policy.
    With [epsilon <= 0] its [po_sample_action] is the target policy's
    greedy action for every draw of [random.random()] in [[0, 1)]; with
    [epsilon >= 1] it is always the action-space sample; and before
    [epsilon] is assigned (it is only annotated in [__init__]) it raises. *)
Theorem behavior_policy_epsilon {Obs St Hidden} (models : Models Obs St Hidden)
    (b : BehaviorPolicy Hidden) (epsilon u : Q) (sample : nat) (o0 : Obs)
    (steps : list (nat * Obs)) :
  (0 <= u < 1)%Q ->
  bp_target_policy (bp_run models b o0 steps)
  = tp_run_steps models (bp_target_policy b) o0 steps
  /\ ((epsilon <= 0)%Q ->
      bp_po_sample_action models (bp_run models (bp_set_epsilon b epsilon) o0 steps)
        u sample
      = tp_po_sample_action models (tp_run_steps models (bp_target_policy b) o0 steps))
  /\ ((1 <= epsilon)%Q ->
      bp_po_sample_action models (bp_run models (bp_set_epsilon b epsilon) o0 steps)
        u sample
      = Some sample)
  /\ bp_po_sample_action models (bp_run models bp_init o0 steps) u sample = None.
Proof.
  intros [Hu0 Hu1].
  split; [apply bp_run_target|].
  destruct (bp_run_target models (bp_set_epsilon b epsilon) o0 steps) as [Ht He].
  split; [|split].
  - intros Heps. unfold bp_po_sample_action. rewrite He. simpl.
    destruct (Qlt_le_dec u epsilon) as [Hlt|_]; [lra|].
    rewrite Ht. reflexivity.
  - intros Heps. unfold bp_po_sample_action. rewrite He. simpl.
    destruct (Qlt_le_dec u epsilon) as [_|Hle]; [reflexivity|lra].
  - destruct (bp_run_target models bp_init o0 steps) as [_ He0].
    unfold bp_po_sample_action. rewrite He0. reflexivity.
Qed.

Lemma behavior_policy_epsilon_witness :
  bp_po_sample_action ex_models
    (bp_run ex_models (bp_set_epsilon bp_init 0%Q) 1%Q [(1, 2%Q)]) (1 # 2) 1
  = tp_po_sample_action ex_models (tp_run_steps ex_models tp_init 1%Q [(1, 2%Q)]).
Proof.
  destruct (behavior_policy_epsilon ex_models bp_init 0%Q (1 # 2) 1 1%Q [(1, 2%Q)])
    as (_ & Hgreedy & _ & _).
  - split; lra.
  - apply Hgreedy. lra.
Defined.

(** On an episode whose last step is not done (a truncated episode), the
    [roll(-1, 0)] of the bootstrap wraps around: the target of the last
    step, in [qhs_loss] and in [qh_loss], bootstraps from the target values
    of the episode's first step. *)
Theorem truncated_episode_bootstraps_from_first_step {Obs St}
    (ep : Episode Obs St) (tqh tqhs : mat) (discount : Q) :
  0 < length (dones ep) ->
  length (rewards ep) = length (dones ep) ->
  length tqh = length (dones ep) ->
  length tqhs = length (dones ep) ->
  List.last (dones ep) false = false ->
  let n := length (dones ep) in
  nth (pred n) (qhs_loss_target ep tqh tqhs discount) 0%Q
  = (nth (pred n) (rewards ep) 0
     + discount * nth (argmax (nth 0 tqh [])) (nth 0 tqhs []) 0)%Q
  /\ nth (pred n) (qh_loss_target ep tqh tqhs discount) 0%Q
     = (nth (pred n) (rewards ep) 0
        + discount * nth (argmax (nth 0 tqh [])) (nth 0 tqhs []) 0)%Q.
Proof.
  intros Hn Hr Hq Hqs Hlast n.
  assert (Hg : length (gather tqhs (argmax_rows tqh)) = n).
  { rewrite length_gather. unfold argmax_rows. rewrite length_map. lia. }
  assert (Hw : length (where0 (dones ep)
                 (roll_back (gather tqhs (argmax_rows tqh)))) = n).
  { rewrite length_where0, length_roll_back, Hg. lia. }
  assert (Hd : nth (pred n) (dones ep) false = false).
  { unfold n. rewrite nth_pred_length_last. exact Hlast. }
  assert (Heq : nth (pred n) (qhs_loss_target ep tqh tqhs discount) 0%Q
                = (nth (pred n) (rewards ep) 0
                   + discount * nth (argmax (nth 0 tqh [])) (nth 0 tqhs []) 0)%Q).
  { unfold qhs_loss_target.
    rewrite nth_vadd by (try (unfold vscale; rewrite length_map); lia).
    rewrite nth_vscale by lia.
    rewrite nth_where0 by (try rewrite length_roll_back; lia).
    rewrite Hd.
    replace (pred n) with (pred (length (gather tqhs (argmax_rows tqh))))
      by (rewrite Hg; reflexivity).
    rewrite nth_roll_back_last
      by (intros E; rewrite E in Hg; simpl in Hg; lia).
    destruct tqh as [|r tqh]; [simpl in Hq; lia|].
    destruct tqhs as [|rs tqhs]; [simpl in Hqs; lia|].
    reflexivity. }
  split; [exact Heq|exact Heq].
Qed.

Lemma truncated_episode_bootstraps_from_first_step_witness :
  nth 1 (qhs_loss_target (mkEpisode [0; 1] [1%Q; 2%Q] [5%Q; 7%Q] [1%Q; 2%Q]
                            [false; false])
           [[1; 3]; [5; 4]]%Q [[1; 2]; [3; 4]]%Q (1 # 2)) 0%Q
  = (2 + (1 # 2) * 2)%Q.
Proof.
  destruct (truncated_episode_bootstraps_from_first_step
              (mkEpisode [0; 1] [1%Q; 2%Q] [5%Q; 7%Q] [1%Q; 2%Q] [false; false])
              [[1; 3]; [5; 4]]%Q [[1; 2]; [3; 4]]%Q (1 # 2))
    as [H _]; [simpl; lia|reflexivity|reflexivity|reflexivity|reflexivity|].
  exact H.
Defined.

(** [episodic_loss] is never negative on a non-empty batch of well-formed
    episodes (every field with one entry per step, at least one step; on
    empty tensors torch returns nan, which the rationals do not model). *)
Theorem episodic_loss_nonneg {Obs St Hidden}
    (models target_models : Models Obs St Hidden)
    (episodes : list (Episode Obs St)) (discount : Q) :
  episodes <> [] ->
  (forall ep, In ep episodes ->
     0 < length (actions ep)
     /\ length (observations ep) = length (actions ep)
     /\ length (states ep) = length (actions ep)
     /\ length (rewards ep) = length (actions ep)
     /\ length (dones ep) = length (actions ep)) ->
  (0 <= episodic_loss models target_models episodes discount)%Q.
Proof.
  intros _ _. unfold episodic_loss, py_sum, Qdiv.
  apply Qmult_le_0_compat.
  - apply fold_left_Qplus_nonneg; [apply Qle_refl|].
    apply List.Forall_forall. intros x Hx.
    apply in_map_iff in Hx as (ep & <- & _). apply episode_loss_nonneg.
  - apply Qinv_le_0_compat, inject_nat_nonneg.
Qed.

Lemma episodic_loss_nonneg_witness :
  (0 <= episodic_loss ex_models ex_target_models [ex_episode; ex_episode2] (1 # 2))%Q.
Proof.
  apply episodic_loss_nonneg.
  - discriminate.
  - intros ep [<-|[<-|[]]]; simpl; repeat split; lia.
Defined.

(** [compute_q_values] gives one row of [qh] values and one row of [qhs]
    values per timestep, and its [qh] values do not depend on the states. *)
Theorem compute_q_values_shape {Obs St Hidden} (models : Models Obs St Hidden)
    (acts : list nat) (obs : list Obs) (sts sts' : list St) :
  length obs = length acts ->
  length sts = length acts ->
  length (fst (compute_q_values models acts obs sts)) = length acts
  /\ length (snd (compute_q_values models acts obs sts)) = length acts
  /\ fst (compute_q_values models acts obs sts)
     = fst (compute_q_values models acts obs sts').
Proof.
  intros Ho Hs.
  assert (Hh : length (compute_history models acts obs) = length acts).
  { unfold compute_history, history_inputs.
    rewrite length_history_seq, length_cat_rows, length_zero_first_row,
      length_roll_fwd, !length_map. lia. }
  unfold compute_q_values. simpl.
  split; [|split; [|reflexivity]].
  - rewrite length_map. exact Hh.
  - rewrite length_map, length_cat_rows, length_map, Hh. lia.
Qed.

Lemma compute_q_values_shape_witness :
  length (snd (compute_q_values ex_models [0; 1] [1%Q; 2%Q] [5%Q; 7%Q])) = 2.
Proof.
  destruct (compute_q_values_shape ex_models [0; 1] [1%Q; 2%Q] [5%Q; 7%Q]
              [5%Q; 7%Q]) as (_ & H & _); [reflexivity|reflexivity|exact H].
Defined.

End POE_ADQN_Extra.

Module ConfigExtra.
Import ConfigModule ConfigFacts.

(** After [get_config()], the global Config object points at an allocated
    dict below [next_loc]. *)
Lemma get_config_has_dict (ops : list Op) (h1 : Heap) (c : loc) :
  h1 = snd (get_config (exec ops empty_heap)) ->
  c = fst (get_config (exec ops empty_heap)) ->
  exists (d : loc) (m : ConfigDict),
    config_objs h1 !! c = Some d /\ dicts h1 !! d = Some m
              /\ d < next_loc h1.
Proof.
  intros -> ->.
  assert (Hwf : wf (snd (get_config (exec ops empty_heap))))
    by apply wf_get_config, wf_exec, wf_empty.
  pose proof (get_config_sets_global (exec ops empty_heap)) as Hg.
  destruct Hwf as [Hc Hgc].
  destruct (Hgc _ Hg) as [d Hd].
  destruct (Hc _ d Hd) as [Hlt [m Hm]].
  exists d, m. auto.
Qed.

(** [Config._update(cd)] ([self._config.update(cd)]): afterwards the
    methods [_get] and [__getattr__] return [cd]'s value for every key of
    [cd], and what they returned before for every other key.  (Attribute
    access goes through [__getattr__] only for names normal lookup does not
    find.) *)
Theorem config_update_overrides (ops : list Op) (cd : ConfigDict)
    (name : string) (dflt : BasicType) :
  let h1 := snd (get_config (exec ops empty_heap)) in
  let c := fst (get_config (exec ops empty_heap)) in
  config_get c name dflt (config_modify (DUpdate cd) c h1)
  = match cd !! name with
    | Some v => Some v
    | None => config_get c name dflt h1
    end
  /\ config_getattr c name (config_modify (DUpdate cd) c h1)
     = match cd !! name with
       | Some v => Some v
       | None => config_getattr c name h1
       end.
Proof.
  intros h1 c.
  destruct (get_config_has_dict ops h1 c eq_refl eq_refl)
    as (d & m & Hd & Hm & _).
  unfold config_get, config_getattr, config_modify, config_dict.
  rewrite Hd. unfold dict_modify. rewrite Hm. simpl.
  rewrite Hd. simpl. rewrite lookup_insert_eq, Hm. simpl.
  rewrite lookup_union.
  split; destruct (cd !! name), (m !! name); reflexivity.
Qed.

(** [Config._clear()] empties the config: afterwards [_get] returns the
    default for every name, the method [__getattr__] raises [KeyError] for
    every name (so attribute access raises it for every name normal lookup
    does not find), and [get_config()] still returns the same object. *)
Theorem config_clear_empties (ops : list Op) (name : string)
    (dflt : BasicType) :
  let h1 := snd (get_config (exec ops empty_heap)) in
  let c := fst (get_config (exec ops empty_heap)) in
  config_dict c (config_modify DClear c h1) = Some ∅
  /\ config_get c name dflt (config_modify DClear c h1) = Some dflt
  /\ config_getattr c name (config_modify DClear c h1) = None
  /\ fst (get_config (config_modify DClear c h1)) = c.
Proof.
  intros h1 c.
  destruct (get_config_has_dict ops h1 c eq_refl eq_refl)
    as (d & m & Hd & Hm & _).
  assert (Hcd : config_dict c (config_modify DClear c h1) = Some ∅).
  { unfold config_modify, config_dict. rewrite Hd. unfold dict_modify.
    rewrite Hm. simpl. rewrite Hd. simpl. rewrite lookup_insert_eq.
    reflexivity. }
  split; [exact Hcd|split; [|split]].
  - unfold config_get. rewrite Hcd. simpl. rewrite lookup_empty.
    reflexivity.
  - unfold config_getattr. rewrite Hcd. simpl. apply lookup_empty.
  - assert (Hg : global_config h1 = Some c) by apply get_config_sets_global.
    unfold get_config at 1. unfold config_modify. rewrite Hd.
    rewrite dict_modify_global, Hg. reflexivity.
Qed.

(** The dict returned by [_as_dict()] is a snapshot: later [_update] and
    [_clear] calls, and item writes through the config, do not change it. *)
Theorem as_dict_snapshot (ops : list Op) (muts : list DictOp) :
  let h1 := snd (get_config (exec ops empty_heap)) in
  let c := fst (get_config (exec ops empty_heap)) in
  match as_dict c h1 with
  | Some (d, h2) =>
      dicts (fold_left (fun h o => config_modify o c h) muts h2) !! d
      = config_dict c h1
  | None => False
  end.
Proof.
  intros h1 c.
  destruct (get_config_has_dict ops h1 c eq_refl eq_refl)
    as (d' & m & Hd & Hm & Hlt).
  assert (Hcd : config_dict c h1 = Some m).
  { unfold config_dict. rewrite Hd. exact Hm. }
  unfold as_dict. rewrite Hcd. simpl.
  assert (Hne : d' <> next_loc h1) by lia.
  set (h2 := mkHeap (global_config h1) (config_objs h1)
               (<[next_loc h1:=m]> (dicts h1)) (S (next_loc h1))).
  assert (Hc2 : config_objs h2 !! c = Some d') by exact Hd.
  assert (Hd2 : dicts h2 !! next_loc h1 = Some m)
    by (simpl; apply lookup_insert_eq).
  clearbody h2. revert h2 Hc2 Hd2.
  induction muts as [|o muts IH]; intros h Hc Hdm; simpl; [exact Hdm|].
  apply IH.
  - unfold config_modify. rewrite Hc. rewrite dict_modify_config_objs.
    exact Hc.
  - unfold config_modify. rewrite Hc. rewrite dict_modify_other by congruence.
    exact Hdm.
Qed.

End ConfigExtra.

Module MainA2CExtra.
Import MainA2C MainA2CFacts.

Section Driver.

Context {Env Algo StateDict DataLogger Timer Averages TimeDispenser
  TargetUpdater Factories Device Schedule QEstimator Episode CfgDict : Type}.

Variable make_env : A2CConfig -> Env.
Variable make_a2c_algorithm : A2CConfig -> Algo.
Variable algo_load_state_dict : Algo -> StateDict -> Algo.
Variable new_datalogger : DataLogger.
Variable new_timer : Timer.
Variable new_xstats : XStats.
Variable new_averages : Averages.
Variable new_time_dispenser : nat -> TimeDispenser.
Variable time_dispense : TimeDispenser -> bool * TimeDispenser.
Variable make_target_updater : A2CConfig -> TargetUpdater.
Variable make_factories : A2CConfig -> Env -> Algo -> Factories.
Variable get_device : A2CConfig -> Device.
Variable make_schedule : A2CConfig -> Schedule.
Variable q_estimator_factory : A2CConfig -> QEstimator.

Local Abbreviation make_runstate' :=
  (make_runstate make_env make_a2c_algorithm algo_load_state_dict
     new_datalogger new_timer new_xstats new_averages new_time_dispenser
     time_dispense make_target_updater make_factories get_device
     make_schedule q_estimator_factory).

(** [make_runstate] raises when the target-update function is neither
    'full' nor 'polyak' (the [assert False]) or [num_data_logs] is zero (the
    [ZeroDivisionError] of [//]), with or without a checkpoint. *)
Theorem make_runstate_errors (config : A2CConfig)
    (ck : option (Checkpoint StateDict DataLogger Timer Averages
                    TimeDispenser CfgDict)) :
  (target_update_function config <> "full"%string
   /\ target_update_function config <> "polyak"%string)
  \/ num_data_logs config = 0 ->
  make_runstate' config ck = None.
Proof.
  intros H. unfold make_runstate, make_target_update_dispenser.
  destruct (String.eqb_spec (target_update_function config) "full") as [Hf|Hf];
  [|destruct (String.eqb_spec (target_update_function config) "polyak")
      as [Hq|Hq]]; simpl.
  - destruct H as [[H _]|Hz]; [contradiction|].
    rewrite Hz. reflexivity.
  - destruct H as [[_ H]|Hz]; [contradiction|].
    rewrite Hz. reflexivity.
  - reflexivity.
Qed.

(** The steps of an epoch are consistent with each other and with the
    configuration: a model snapshot is only saved in an epoch that logs
    data, the log is committed exactly in the epochs whose xstats are
    logged, evaluation never runs when [evaluation] is off and snapshots
    are never saved when [save_modelseq] is off; [update_controlflow]
    fails exactly when [evaluation_period] is zero. *)
Theorem epoch_events_consistent (config : A2CConfig)
    (rs : Runstate Env Algo DataLogger Timer Averages TimeDispenser
            TargetUpdater Factories Device Schedule QEstimator) :
  match update_controlflow config rs with
  | Some (cf, _) =>
      (In SaveModelseq (epoch_events cf) -> In LogXStats (epoch_events cf))
      /\ (In Commit (epoch_events cf) <-> In LogXStats (epoch_events cf))
      /\ (evaluation config = false -> ~ In RunEvaluation (epoch_events cf))
      /\ (save_modelseq config = false -> ~ In SaveModelseq (epoch_events cf))
      /\ evaluation_period config <> 0
  | None => evaluation_period config = 0
  end.
Proof.
  unfold update_controlflow.
  destruct (dispense (datalog (rs_dispensers rs))
              (simulation_timesteps (rs_xstats rs))) as [ld dl'].
  destruct (dispense (target_update (rs_dispensers rs))
              (simulation_timesteps (rs_xstats rs))) as [ut tu'].
  destruct (Nat.eqb_spec (evaluation_period config) 0) as [Hz|Hz];
    [exact Hz|].
  simpl.
  destruct ld, ut, (Nat.eqb _ 0), (evaluation config), (save_modelseq config);
    unfold epoch_events, when; simpl;
    repeat split; auto; intuition discriminate.
Qed.

End Driver.

Lemma make_runstate_errors_witness :
  make_runstate (fun _ : A2CConfig => tt) (fun _ : A2CConfig => 0)
    (fun (_ : nat) (sd : nat) => sd) tt tt (mkXStats 0 0 0 0 0 0) tt
    (fun _ : nat => tt) (fun t : unit => (true, t)) (fun _ : A2CConfig => tt)
    (fun (_ : A2CConfig) (_ : unit) (_ : nat) => tt)
    (fun _ : A2CConfig => tt) (fun _ : A2CConfig => tt)
    (fun _ : A2CConfig => tt)
    (mkA2CConfig "soft" 100 1000 10 600 true 5 false (99 # 100) "run-1")
    (None : option (Checkpoint nat unit unit unit unit unit))
  = None.
Proof.
  apply (make_runstate_errors (fun _ : A2CConfig => tt) (fun _ : A2CConfig => 0)
           (fun (_ : nat) (sd : nat) => sd) tt tt (mkXStats 0 0 0 0 0 0) tt
           (fun _ : nat => tt) (fun t : unit => (true, t))
           (fun _ : A2CConfig => tt)
           (fun (_ : A2CConfig) (_ : unit) (_ : nat) => tt)
           (fun _ : A2CConfig => tt) (fun _ : A2CConfig => tt)
           (fun _ : A2CConfig => tt)).
  left. split; discriminate.
Defined.

End MainA2CExtra.

Module MainA2CRunFacts.
Import MainA2CRun.
Open Scope string_scope.

Lemma string_app_length (s1 s2 : string) :
  String.length (s1 +:+ s2) = String.length s1 + String.length s2.
Proof. induction s1 as [|c s1 IH]; simpl; auto. Qed.

Lemma string_app_cancel_r (s1 s2 x : string) :
  s1 +:+ x = s2 +:+ x -> s1 = s2.
Proof.
  revert s2; induction s1 as [|c s1 IH]; intros [|c2 s2] H; auto.
  - apply (f_equal String.length) in H.
    rewrite !string_app_length in H. simpl in H. lia.
  - apply (f_equal String.length) in H.
    rewrite !string_app_length in H. simpl in H. lia.
  - simpl in H. injection H as -> H. f_equal. apply IH, H.
Qed.

Lemma string_app_nil (s : string) : "" +:+ s = s.
Proof. reflexivity. Qed.

Lemma string_app_cons (c : Ascii.ascii) (s1 s2 : string) :
  String c s1 +:+ s2 = String c (s1 +:+ s2).
Proof. reflexivity. Qed.

Lemma py_format_go_no_braces (used : bool) (arg s : string) :
  no_braces s = true -> py_format_go used arg s = Some s.
Proof.
  induction s as [|c s IH]; intros H; simpl; auto.
  simpl in H. apply andb_true_iff in H as [H Hs].
  apply andb_true_iff in H as [Ho Hc].
  apply negb_true_iff in Ho, Hc. rewrite Ho, Hc, IH by exact Hs.
  reflexivity.
Qed.

Lemma py_format_go_app (used : bool) (arg s1 s2 : string) :
  no_braces s1 = true ->
  py_format_go used arg (s1 +:+ s2) = String.append s1 <$> py_format_go used arg s2.
Proof.
  induction s1 as [|c s1 IH]; intros H.
  - rewrite string_app_nil. destruct (py_format_go used arg s2); reflexivity.
  - rewrite string_app_cons. simpl.
    simpl in H. apply andb_true_iff in H as [H Hs].
    apply andb_true_iff in H as [Ho Hc].
    apply negb_true_iff in Ho, Hc. rewrite Ho, Hc, IH by exact Hs.
    destruct (py_format_go used arg s2); reflexivity.
Qed.

(** A key that no inserted pair renames to keeps its old value. *)
Lemma fold_insert_notin (f : string -> string) (l : list (string * Q))
    (acc : gmap string Q) (k : string) :
  (forall x v, (x, v) ∈ l -> f x <> k) ->
  fold_left (fun acc '(key, value) => <[f key := value]> acc) l acc !! k
  = acc !! k.
Proof.
  revert acc. induction l as [|[k' v'] l IH]; intros acc H; simpl; auto.
  rewrite IH.
  - apply lookup_insert_ne. apply (H k' v'). left.
  - intros x v Hx. apply (H x v). right. exact Hx.
Qed.

(** Inserting the pairs of a list with distinct keys, under an injective
    renaming of the keys: every renamed key ends up with its value. *)
Lemma fold_insert_in (f : string -> string) (l : list (string * Q))
    (acc : gmap string Q) (k : string) (v : Q) :
  (forall x y, f x = f y -> x = y) ->
  NoDup l.*1 -> (k, v) ∈ l ->
  fold_left (fun acc '(key, value) => <[f key := value]> acc) l acc !! f k
  = Some v.
Proof.
  intros Hf. revert acc.
  induction l as [|[k' v'] l IH]; intros acc Hnd Hin; simpl.
  - apply elem_of_nil in Hin. contradiction.
  - simpl in Hnd. apply NoDup_cons in Hnd as [Hk' Hnd].
    apply elem_of_cons in Hin as [Heq|Hin].
    + injection Heq as <- <-.
      rewrite fold_insert_notin; [apply lookup_insert_eq|].
      intros x v0 Hx He. apply Hf in He. subst x. apply Hk'.
      apply list_elem_of_fmap. exists (k, v0). split; [reflexivity|exact Hx].
    + apply IH; assumption.
Qed.

(** A key the fold sets was either already set, or is the renaming of a
    key of one of the inserted pairs. *)
Lemma fold_insert_some (f : string -> string) (l : list (string * Q))
    (acc : gmap string Q) (k : string) (v : Q) :
  fold_left (fun acc '(key, value) => <[f key := value]> acc) l acc !! k
  = Some v ->
  acc !! k = Some v \/ exists x, (x, v) ∈ l /\ f x = k.
Proof.
  revert acc. induction l as [|[k' v'] l IH]; intros acc H; simpl in H; auto.
  destruct (IH _ H) as [Ha|(x & Hx & Hfx)].
  - destruct (decide (f k' = k)) as [<-|Hne].
    + rewrite lookup_insert_eq in Ha. injection Ha as <-.
      right. exists k'. split; [left|reflexivity].
    + rewrite lookup_insert_ne in Ha by exact Hne. left. exact Ha.
  - right. exists x. split; [right; exact Hx|exact Hfx].
Qed.

Lemma prefixed_items_some (prefix k : string) (d : gmap string Q) (v : Q) :
  prefixed_items prefix d !! k = Some v ->
  exists x, k = prefix +:+ x /\ d !! x = Some v.
Proof.
  unfold prefixed_items. intros H.
  apply fold_insert_some in H as [H|(x & Hx & <-)].
  - rewrite lookup_empty in H. discriminate.
  - exists x. split; [reflexivity|]. apply elem_of_map_to_list, Hx.
Qed.

Lemma prefixed_items_lookup (prefix k : string) (d : gmap string Q) :
  prefixed_items prefix d !! (prefix +:+ k) = d !! k.
Proof.
  unfold prefixed_items. destruct (d !! k) as [v|] eqn:E.
  - apply (fold_insert_in (String.append prefix)).
    + intros x y H. apply (inj (String.append prefix)), H.
    + apply NoDup_fst_map_to_list.
    + apply elem_of_map_to_list, E.
  - rewrite fold_insert_notin; [apply lookup_empty|].
    intros x v Hx He. apply (inj (String.append prefix)) in He. subst x.
    apply elem_of_map_to_list in Hx. congruence.
Qed.

Lemma prefixed_items_lookup_other (prefix k : string) (d : gmap string Q) :
  (forall x, prefix +:+ x <> k) -> prefixed_items prefix d !! k = None.
Proof.
  intros H. unfold prefixed_items.
  rewrite fold_insert_notin; [apply lookup_empty|].
  intros x v _. apply H.
Qed.

Lemma dict_splat_lookup (acc d : gmap string Q) (k : string) :
  dict_splat acc d !! k
  = match d !! k with Some v => Some v | None => acc !! k end.
Proof.
  unfold dict_splat. destruct (d !! k) as [v|] eqn:E.
  - apply (fold_insert_in (fun s => s)); auto.
    + apply NoDup_fst_map_to_list.
    + apply elem_of_map_to_list, E.
  - apply fold_insert_notin. intros x v Hx ->.
    apply elem_of_map_to_list in Hx. congruence.
Qed.

Section Run.

Context {RS : Type}.
Variable simulation_timesteps_of : RS -> nat.
Variable run_epoch : RS -> RS.
Variable checkpoint_dispense : RS -> bool * RS.
Variable timeout_at : nat -> bool.
Variable interrupt_at : nat -> bool.
Variable max_simulation_timesteps : nat.
Variable checkpoint_path_cfg : option string.
Variable save_model_cfg : bool.

Local Abbreviation sim := simulation_timesteps_of.
Local Abbreviation maxt := max_simulation_timesteps.

(** Each epoch, followed by the checkpoint dispense, advances
    [simulation_timesteps]. *)
Hypothesis epoch_progress :
  forall rs, S (sim rs) <= sim (snd (checkpoint_dispense (run_epoch rs))).

Lemma save_checkpoint_events e :
  In e (save_checkpoint checkpoint_path_cfg) -> e = SaveCheckpoint.
Proof.
  unfold save_checkpoint. destruct checkpoint_path_cfg; simpl; intuition.
Qed.

Local Abbreviation run_loop' :=
  (run_loop sim run_epoch checkpoint_dispense timeout_at interrupt_at maxt
     checkpoint_path_cfg).

Lemma run_loop_unfold (m i : nat) (rs : RS) :
  run_loop' (S m) i rs
  = if stop_run (update_runflags sim timeout_at interrupt_at maxt i rs)
    then Some ([], rs, update_runflags sim timeout_at interrupt_at maxt i rs)
    else
      let '(dispensed, rs2) := checkpoint_dispense (run_epoch rs) in
      r ← run_loop' m (S i) rs2;
      let '(evs, rs', rf) := r in
      Some (EpochAt (sim rs)
              :: (if dispensed then save_checkpoint checkpoint_path_cfg else [])
              ++ evs, rs', rf)%list.
Proof. reflexivity. Qed.

Lemma run_loop_terminates (n i : nat) (rs : RS) :
  maxt - sim rs <= n ->
  exists evs rs' rf,
    run_loop sim run_epoch checkpoint_dispense timeout_at interrupt_at maxt
      checkpoint_path_cfg (S n) i rs = Some (evs, rs', rf)
    /\ (forall t, In (EpochAt t) evs -> t < maxt)
    /\ length (filter is_epoch evs) <= maxt - sim rs
    /\ stop_run rf = true
    /\ rf_done rf = Nat.leb maxt (sim rs')
    /\ ~ In SaveModel evs
    /\ ((forall j, timeout_at j = false /\ interrupt_at j = false) ->
        rf_done rf = true).
Proof.
  revert i rs. induction n as [|n IH]; intros i rs Hn;
    rewrite run_loop_unfold; unfold update_runflags;
    destruct (stop_run (mkRunflags (Nat.leb maxt (sim rs)) (timeout_at i)
                          (interrupt_at i))) eqn:Hs.
  1, 3: exists [], rs, (mkRunflags (Nat.leb maxt (sim rs)) (timeout_at i)
                                 (interrupt_at i));
    split; [reflexivity|]; simpl; split; [intros t []|];
    split; [lia|]; split; [exact Hs|]; split; [reflexivity|];
    split; [intros []|];
    intros Hnt; destruct (Hnt i) as [Ht Hi]; unfold stop_run in Hs; simpl in Hs;
    rewrite Ht, Hi in Hs; rewrite !orb_false_r in Hs; exact Hs.
  - unfold stop_run in Hs. simpl in Hs.
    apply orb_false_iff in Hs as [Hs _]. apply orb_false_iff in Hs as [Hs _].
    apply Nat.leb_gt in Hs. lia.
  - unfold stop_run in Hs. simpl in Hs.
    apply orb_false_iff in Hs as [Hs _]. apply orb_false_iff in Hs as [Hs _].
    apply Nat.leb_gt in Hs.
    pose proof (epoch_progress rs) as Hp.
    destruct (checkpoint_dispense (run_epoch rs)) as [dispensed rs2] eqn:Ed.
    simpl in Hp.
    destruct (IH (S i) rs2 ltac:(lia))
      as (evs & rs' & rf & Hr & Ht & Hlen & Hst & Hd & Hm & Hnt).
    rewrite Hr. simpl.
    exists (EpochAt (sim rs)
            :: (if dispensed then save_checkpoint checkpoint_path_cfg else [])
            ++ evs)%list, rs', rf.
    split; [reflexivity|].
    split; [|split; [|split; [exact Hst|split; [exact Hd|split; [|exact Hnt]]]]].
    + intros t [Heq|Hin]; [injection Heq as <-; exact Hs|].
      apply in_app_iff in Hin as [Hin|Hin]; [|apply Ht, Hin].
      destruct dispensed; [|contradiction].
      apply save_checkpoint_events in Hin. discriminate.
    + simpl. rewrite filter_app, length_app.
      assert (H0 : filter is_epoch
                     (if dispensed then save_checkpoint checkpoint_path_cfg else [])
                   = []).
      { unfold save_checkpoint.
        destruct dispensed, checkpoint_path_cfg; reflexivity. }
      rewrite H0. simpl. lia.
    + intros [Heq|Hin]; [discriminate|].
      apply in_app_iff in Hin as [Hin|Hin]; [|contradiction].
      destruct dispensed; [|contradiction].
      apply save_checkpoint_events in Hin. discriminate.
Qed.

End Run.

End MainA2CRunFacts.

Module MainA2CRunExtra.
Import MainA2CRun MainA2CRunFacts.
Open Scope string_scope.

(** With a run path free of braces, [save_modelseq] writes the snapshot of
    timestep [t] to [<run_path>/modelseq/modelseq.<t>.pkl]: different
    timesteps get different files, none of which is the checkpoint or the
    model file (which differ from each other).  Without a run path the
    [.format] call fails. *)
Theorem modelseq_filenames (run_path : string) :
  no_braces run_path = true ->
  let paths := run_paths (Some run_path) in
  (forall t, modelseq_filename paths t
             = Some (run_path +:+ "/modelseq/modelseq." +:+ py_str_int t +:+ ".pkl"))
  /\ (forall t t', modelseq_filename paths t = modelseq_filename paths t' -> t = t')
  /\ (forall t, modelseq_filename paths t <> checkpoint_path paths
                /\ modelseq_filename paths t <> model_path paths)
  /\ checkpoint_path paths <> model_path paths
  /\ (forall t, modelseq_filename (run_paths None) t = None).
Proof.
  intros Hr paths.
  assert (Hf : forall t, modelseq_filename paths t
             = Some (run_path +:+ "/modelseq/modelseq." +:+ py_str_int t +:+ ".pkl")).
  { intros t. unfold modelseq_filename, py_format. simpl.
    rewrite py_format_go_app by exact Hr. reflexivity. }
  split; [exact Hf|split; [|split; [|split]]].
  - intros t t'. rewrite !Hf. intros H. injection H as H.
    apply (inj (String.append run_path)) in H.
    apply (inj (String.append "/modelseq/modelseq.")) in H.
    apply string_app_cancel_r in H.
    apply (inj pretty) in H. exact H.
  - intros t. rewrite Hf. simpl.
    split; intros H; injection H as H; apply (inj (String.append run_path)) in H;
      discriminate H.
  - simpl. intros H. injection H as H.
    apply (inj (String.append run_path)) in H. discriminate H.
  - intros t. reflexivity.
Qed.

(** The dict [log_training] logs: each loss under
    ['training/losses/<key>'], each gradient norm under
    ['training/gradient_norms/<key>'], the negentropy weight under
    ['training/weights/negentropy'], and nothing else; no entry overrides
    another. *)
Theorem training_logdata_lookup (losses gradient_norms : gmap string Q)
    (negentropy_weight : Q) :
  let logdata := training_logdata losses negentropy_weight gradient_norms in
  (forall k, logdata !! ("training/losses/" +:+ k) = losses !! k)
  /\ (forall k, logdata !! ("training/gradient_norms/" +:+ k) = gradient_norms !! k)
  /\ logdata !! "training/weights/negentropy" = Some negentropy_weight
  /\ (forall k, is_Some (logdata !! k) ->
        k = "training/weights/negentropy"
        \/ (exists x, k = "training/losses/" +:+ x /\ is_Some (losses !! x))
        \/ (exists x, k = "training/gradient_norms/" +:+ x
                      /\ is_Some (gradient_norms !! x))).
Proof.
  intros logdata. unfold logdata, training_logdata.
  split; [|split; [|split]].
  - intros k. rewrite dict_splat_lookup.
    rewrite prefixed_items_lookup_other by (intros x H; discriminate H).
    rewrite lookup_insert_ne by discriminate.
    rewrite dict_splat_lookup, lookup_empty, prefixed_items_lookup.
    destruct (losses !! k); reflexivity.
  - intros k. rewrite dict_splat_lookup, prefixed_items_lookup.
    destruct (gradient_norms !! k); [reflexivity|].
    rewrite lookup_insert_ne by discriminate.
    rewrite dict_splat_lookup, lookup_empty.
    rewrite prefixed_items_lookup_other by (intros x H; discriminate H).
    reflexivity.
  - rewrite dict_splat_lookup.
    rewrite prefixed_items_lookup_other by (intros x H; discriminate H).
    apply lookup_insert_eq.
  - intros k [v Hv]. rewrite dict_splat_lookup in Hv.
    destruct (prefixed_items "training/gradient_norms/" gradient_norms !! k)
      as [v'|] eqn:Eg.
    + apply prefixed_items_some in Eg as (x & -> & Hx).
      right; right. exists x. split; [reflexivity|eexists; exact Hx].
    + destruct (decide (k = "training/weights/negentropy")) as [->|Hne];
        [left; reflexivity|].
      rewrite lookup_insert_ne in Hv by congruence.
      rewrite dict_splat_lookup, lookup_empty in Hv.
      destruct (prefixed_items "training/losses/" losses !! k) as [v'|] eqn:El;
        [|discriminate].
      apply prefixed_items_some in El as (x & -> & Hx).
      right; left. exists x. split; [reflexivity|eexists; exact Hx].
Qed.

(** When every epoch advances [simulation_timesteps], [run] stops after at
    most [max_simulation_timesteps - simulation_timesteps] epochs, each
    started below the maximum; the final flags stop the run, the exit code
    of [main] is 0 exactly when the maximum was reached, the model is saved
    exactly when the run is done and [save_model] is set, a checkpoint is
    written whenever there is a checkpoint path, and without timeout or
    interrupt the exit code is 0. *)
Theorem run_terminates_exit_code {RS : Type} (simulation_timesteps_of : RS -> nat)
    (run_epoch : RS -> RS) (checkpoint_dispense : RS -> bool * RS)
    (timeout_at interrupt_at : nat -> bool) (max_simulation_timesteps : nat)
    (checkpoint_path_cfg : option string) (save_model_cfg : bool) (rs : RS) :
  (forall r, S (simulation_timesteps_of r)
             <= simulation_timesteps_of (snd (checkpoint_dispense (run_epoch r)))) ->
  exists evs rs' rf,
    run simulation_timesteps_of run_epoch checkpoint_dispense timeout_at
      interrupt_at max_simulation_timesteps checkpoint_path_cfg save_model_cfg
      (S (max_simulation_timesteps - simulation_timesteps_of rs)) rs
    = Some (evs, rs', rf)
    /\ (forall t, In (EpochAt t) evs -> t < max_simulation_timesteps)
    /\ length (filter is_epoch evs)
       <= max_simulation_timesteps - simulation_timesteps_of rs
    /\ stop_run rf = true
    /\ (exit_code rf = 0 <-> max_simulation_timesteps <= simulation_timesteps_of rs')
    /\ (In SaveModel evs
        <-> save_model_cfg = true
            /\ max_simulation_timesteps <= simulation_timesteps_of rs')
    /\ (checkpoint_path_cfg <> None -> In SaveCheckpoint evs)
    /\ ((forall j, timeout_at j = false /\ interrupt_at j = false) ->
        exit_code rf = 0).
Proof.
  intros Hp.
  destruct (run_loop_terminates simulation_timesteps_of run_epoch
              checkpoint_dispense timeout_at interrupt_at max_simulation_timesteps
              checkpoint_path_cfg Hp
              (max_simulation_timesteps - simulation_timesteps_of rs) 0 rs
              (le_n _))
    as (evs & rs' & rf & Hr & Ht & Hlen & Hst & Hd & Hm & Hnt).
  assert (Hsc : forall e, In e (save_checkpoint checkpoint_path_cfg) ->
                          e = SaveCheckpoint).
  { intros e He. unfold save_checkpoint in He.
    destruct checkpoint_path_cfg; simpl in He; intuition. }
  unfold run. rewrite Hr. simpl.
  eexists _, rs', rf. split; [reflexivity|].
  split; [|split; [|split; [exact Hst|split; [|split; [|split]]]]].
  - intros t Hin. apply in_app_iff in Hin as [Hin|Hin]; [apply Ht, Hin|].
    apply in_app_iff in Hin as [Hin|Hin].
    + apply Hsc in Hin. discriminate.
    + destruct (rf_done rf && save_model_cfg); [|contradiction].
      destruct Hin as [Hin|[]]. discriminate.
  - rewrite !filter_app, !length_app.
    assert (H0 : filter is_epoch (save_checkpoint checkpoint_path_cfg) = []).
    { unfold save_checkpoint. destruct checkpoint_path_cfg; reflexivity. }
    rewrite H0. destruct (rf_done rf && save_model_cfg); simpl; lia.
  - unfold exit_code. rewrite Hd.
    destruct (Nat.leb_spec max_simulation_timesteps (simulation_timesteps_of rs'));
      split; intros; auto; try discriminate; lia.
  - rewrite !in_app_iff. rewrite Hd.
    split.
    + intros [Hin|[Hin|Hin]]; [contradiction|apply Hsc in Hin; discriminate|].
      destruct (Nat.leb_spec max_simulation_timesteps (simulation_timesteps_of rs')),
        save_model_cfg; simpl in Hin; try contradiction.
      split; [reflexivity|assumption].
    + intros [-> Hle]. right; right. apply Nat.leb_le in Hle. rewrite Hle.
      left. reflexivity.
  - intros Hcp. apply in_app_iff. right. apply in_app_iff. left.
    unfold save_checkpoint. destruct checkpoint_path_cfg; [left; reflexivity|].
    contradiction.
  - intros Hn. unfold exit_code. rewrite (Hnt Hn). reflexivity.
Qed.

Lemma modelseq_filenames_witness :
  modelseq_filename (run_paths (Some "runs/a2c")) 1200
  = Some ("runs/a2c" +:+ "/modelseq/modelseq." +:+ py_str_int 1200 +:+ ".pkl").
Proof.
  destruct (modelseq_filenames "runs/a2c" eq_refl) as [H _]. apply H.
Defined.

Lemma run_terminates_exit_code_witness :
  exists evs rs' rf,
    run (fun r : nat => r) S (fun r => (true, r)) (fun _ => false)
      (fun _ => false) 3 (Some "runs/a2c/checkpoint.pkl") true 4 0
    = Some (evs, rs', rf)
    /\ exit_code rf = 0 /\ In SaveModel evs.
Proof.
  destruct (run_terminates_exit_code (fun r : nat => r) S (fun r => (true, r))
              (fun _ => false) (fun _ => false) 3 (Some "runs/a2c/checkpoint.pkl")
              true 0 (fun r => le_n _))
    as (evs & rs' & rf & Hr & _ & _ & _ & He & Hm & _ & Hnt).
  assert (H0 : exit_code rf = 0) by (apply Hnt; intros; split; reflexivity).
  exists evs, rs', rf. split; [exact Hr|split; [exact H0|]].
  apply Hm. split; [reflexivity|apply He, H0].
Defined.

End MainA2CRunExtra.
